(** * Galaxy: Fractured Dawn -- the combat resolution engine

    A shallow embedding of [core/combat.py] together with the parts of
    [core/utils.py], [core/modules.py] and [core/player.py] it calls, and
    the properties of the turn loop, the weapon volley, the resource
    ledger and the mitigation routine.

    Conventions of the embedding.
    - Python [int] is [Z]; [//] is [Z.div] (floor), [int(x)] of a product
      with a float literal is truncation toward zero ([Z.quot]).
    - The float literals of the source (1.8 and the weakness multipliers
      1.1, 0.9, 1.2) are the rationals 18/10, 11/10, 9/10, 12/10; the
      product is taken exactly before it is truncated.  For these four
      multipliers and integers of 0..1000000 the double-precision product
      truncates to the same integer; the registry's damage ranges (38 at
      most) and the pirate's (18 at most) lie far inside.  A statement that
      depends on the value of such a product beyond those ranges carries
      the bound as a hypothesis.
    - [random.randint] reads the next value of an entropy tape and reduces
      it into the requested interval, so every draw is in range by
      construction and a test fixes the draws by fixing the tape.  (An
      empty interval, on which Python raises, does not occur: the dice, the
      percentages and every damage range of the repository are
      well-formed.)
    - The dict-shaped records of the source are Rocq records holding the
      keys the repository always writes ([new_player], [PIRATE_TEMPLATE],
      the [ship_data] literals); a key read with [.get(key, default)]
      that may be absent is an [option].
    - The presentation layer ([type_out], [pause], music) has no effect on
      the combat state; of it only the per-turn log handed to
      [print_combat_log] is kept.  [combat_menu] reads a line and returns
      it stripped of surrounding whitespace (line 144).  The loop of the
      model takes as [inputs t] the string it returns, so the input of a
      turn is always the stripped line, never the raw one; a statement
      about the lines the player types applies [combat_menu] to them. *)

From Stdlib Require Import ZArith QArith Lia.
From stdpp Require Import gmap strings list fin_maps.

Local Open Scope string_scope.
Local Open Scope list_scope.
Local Open Scope Z_scope.

(* ===================================================================== *)
(** ** core/utils.py: the random source                                   *)
(* ===================================================================== *)

Module Utils.

(** The shared generator: an entropy tape and the index of the next
    unread cell. *)
Record rng : Type := mk_rng { entropy : nat -> Z; cursor : nat }.

(** Computations that draw from the generator. *)
Definition Rand (A : Type) : Type := rng -> A * rng.

Definition ret {A} (a : A) : Rand A := fun g => (a, g).

Definition bind {A B} (m : Rand A) (k : A -> Rand B) : Rand B :=
  fun g => let (a, g') := m g in k a g'.

(** A tape read from a finite list; cells past its end read [0]. *)
Definition tape (cells : list Z) : rng :=
  mk_rng (fun n => nth n cells 0) 0.

(** [random.randint(a, b)]: a value of [a..b], both ends included. *)
Definition randint (a b : Z) : Rand Z :=
  fun g => (a + entropy g (cursor g) `mod` (b - a + 1),
            mk_rng (entropy g) (S (cursor g))).

(** [roll_dice(sides)] *)
Definition roll_dice (sides : Z) : Rand Z := randint 1 sides.

(** [chance(percent)] *)
Definition chance (percent : Z) : Rand bool :=
  bind (randint 1 100)
       (fun r => ret (r <=? Z.max 0 (Z.min percent 100))).

End Utils.

Export Utils.

Notation "'draw' x <- m ; k" := (bind m (fun x => k))
  (at level 10, x name, m at level 100, k at level 200).

(** [int(x * q)] for an integer [x] and a float literal [q]. *)
Definition int_mul (x : Z) (q : Q) : Z :=
  Z.quot (x * Qnum q) (Z.pos (Qden q)).

(* ===================================================================== *)
(** ** core/modules.py: the module registry                               *)
(* ===================================================================== *)

(** A module definition.  The keys differ by module type, so each one that
    the engine reads with a default is an [option]; [effect] is a dict that
    [get_player_ship] iterates in order. *)
Record Module_ : Type := mk_module {
  m_type      : string;
  damage_type : option string;
  damage      : option (Z * Z);
  ammo_use    : option Z;
  power_use   : option Z;
  effect      : list (string * Z)
}.

Definition weapon (dtype : string) (dmg : Z * Z) (ammo power : Z) : Module_ :=
  mk_module "weapon" (Some dtype) (Some dmg) (Some ammo) (Some power) [].

Definition mining (power : Z) : Module_ :=
  mk_module "mining" None None None (Some power) [].

Definition utility (eff : list (string * Z)) : Module_ :=
  mk_module "utility" None None None None eff.

Definition special (eff : list (string * Z)) : Module_ :=
  mk_module "special" None None None None eff.

(** The literal of [MODULES], in source order.  ([efficiency] of the
    mining drills and [desc] are not read by the combat engine.) *)
Definition MODULE_TABLE : list (string * Module_) :=
  [ ("Pulse Laser",          weapon "energy"  (12, 22) 0 15);
    ("Mass Driver",          weapon "kinetic" (8, 16)  2 5);
    ("Plasma Cannon",        weapon "blast"   (16, 28) 3 12);
    ("Beam Lance",           weapon "energy"  (24, 38) 0 20);
    ("Basic Mining Drill",   mining 5);
    ("Advanced Drill",       mining 8);
    ("Industrial Excavator", mining 15);
    ("Cargo Pod",            utility [("cargo_bonus", 25)]);
    ("Medium Cargo Bay",     utility [("cargo_bonus", 60)]);
    ("Passenger Hold",       utility [("passenger_capacity", 10)]);
    ("Shield Booster",       utility [("shield_bonus", 15)]);
    ("Reactor Upgrade",      utility [("power_bonus", 10)]);
    ("Nanite Repair Bay",    utility [("repair_rate", 5)]);
    ("Scanner Array",        special [("scan_bonus", 15)]);
    ("Warp Stabilizer",      special [("fuel_efficiency", 10)]);
    ("Pirate Transponder",   special [("pirate_reputation", 20)]) ].

Definition MODULES : gmap string Module_ := list_to_map MODULE_TABLE.

(** [get_module(name)]: the entry, or the empty dict ([None]). *)
Definition get_module (name : string) : option Module_ := MODULES !! name.

(** [mod.get(key, 0)] *)
Definition get0 (o : option Z) : Z := default 0 o.

(* ===================================================================== *)
(** ** core/player.py: the player record and the ship store               *)
(* ===================================================================== *)

(** [player["ship_data"]]: every literal of the repository writes the keys
    [modules], [cargo_capacity] and [power_grid]; none writes [speed],
    which the engine reads with the default 5. *)
Record ShipData : Type := mk_ship {
  sd_modules     : Z;
  cargo_capacity : Z;
  power_grid     : Z;
  speed          : option Z
}.

(** The keys of the player dict that combat reads or writes. *)
Record Player : Type := mk_player {
  p_name       : string;
  credits      : Z;
  ammo         : Z;
  hull         : Z;
  armor        : Z;
  shields      : Z;
  ship_data    : ShipData;
  ship_modules : list string
}.

Definition set_shields (v : Z) (p : Player) : Player :=
  mk_player (p_name p) (credits p) (ammo p) (hull p) (armor p) v
            (ship_data p) (ship_modules p).

Definition set_hull (v : Z) (p : Player) : Player :=
  mk_player (p_name p) (credits p) (ammo p) v (armor p) (shields p)
            (ship_data p) (ship_modules p).

Definition set_credits (v : Z) (p : Player) : Player :=
  mk_player (p_name p) v (ammo p) (hull p) (armor p) (shields p)
            (ship_data p) (ship_modules p).

Definition set_power_grid (v : Z) (s : ShipData) : ShipData :=
  mk_ship (sd_modules s) (cargo_capacity s) v (speed s).

(** [new_player()] *)
Definition new_player : Player :=
  mk_player "ShiroWalker" 1000 50 100 100 100
            (mk_ship 4 50 100 None)
            ["Pulse Laser"; "Basic Mining Drill"].

(** The save file: [save_player] overwrites it with the whole record. *)
Definition Disk : Type := option Player.

Definition save_player (p : Player) (d : Disk) : Disk := Some p.

(** The inner loop of [get_player_ship] over [eff.items()]: a shield bonus
    is added to the player record itself, a power bonus to the copy of the
    ship data. *)
Fixpoint apply_effect (eff : list (string * Z)) (p : Player) (ship : ShipData)
  : Player * ShipData :=
  match eff with
  | [] => (p, ship)
  | (stat, bonus) :: rest =>
      if String.eqb stat "shield_bonus"
      then apply_effect rest (set_shields (shields p + bonus) p) ship
      else if String.eqb stat "power_bonus"
      then apply_effect rest p (set_power_grid (power_grid ship + bonus) ship)
      else apply_effect rest p ship
  end.

(** The outer loop of [get_player_ship] over the installed modules. *)
Fixpoint apply_modules (mods : list string) (p : Player) (ship : ShipData)
  : Player * ShipData :=
  match mods with
  | [] => (p, ship)
  | mod_name :: rest =>
      match MODULES !! mod_name with
      | Some md =>
          if String.eqb (m_type md) "utility"
          then let (p', ship') := apply_effect (effect md) p ship in
               apply_modules rest p' ship'
          else apply_modules rest p ship
      | None => apply_modules rest p ship
      end
  end.

(** [get_player_ship(player)]: the player as the call leaves it, and the
    returned ship stats. *)
Definition get_player_ship (p : Player) : Player * ShipData :=
  apply_modules (ship_modules p) p (ship_data p).

(* ===================================================================== *)
(** ** core/combat.py: enemy record and log lines                         *)
(* ===================================================================== *)

(** The enemy dict; [weakness] keeps the order of the literal, which
    [scan_enemy] iterates. *)
Record Enemy : Type := mk_enemy {
  e_name       : string;
  e_class      : string;
  e_hull       : Z;
  e_armor      : Z;
  e_shields    : Z;
  weakness     : list (string * Q);
  damage_range : Z * Z;
  accuracy     : Z
}.

Definition set_e_shields (v : Z) (e : Enemy) : Enemy :=
  mk_enemy (e_name e) (e_class e) (e_hull e) (e_armor e) v
           (weakness e) (damage_range e) (accuracy e).

Definition set_e_hull (v : Z) (e : Enemy) : Enemy :=
  mk_enemy (e_name e) (e_class e) v (e_armor e) (e_shields e)
           (weakness e) (damage_range e) (accuracy e).

Definition PIRATE_TEMPLATE : Enemy :=
  mk_enemy "Sholen Raider" "Frigate" 100 98 60
           [("kinetic", 11 # 10); ("energy", 9 # 10); ("blast", 12 # 10)]
           (8, 18) 12.

(** [enemy.get("weakness", {}).get(dtype, 1.0)] *)
Fixpoint multiplier_of (w : list (string * Q)) (dtype : string) : Q :=
  match w with
  | [] => 1%Q
  | (k, v) :: rest => if String.eqb k dtype then v else multiplier_of rest dtype
  end.

(** One constructor per message template of the source, carrying the
    values the f-string interpolates. *)
Inductive LogLine : Type :=
  | LCombatLog                                  (* =====[Combat Log]===== *)
  | LCrit (mod_name : string) (roll : Z)        (* Crit! .. scored a critical *)
  | LMisfire (mod_name : string) (roll : Z)     (* .. misfired *)
  | LNoAmmo (mod_name : string)                 (* .. has insufficient ammo *)
  | LNoPower (mod_name : string)                (* .. (insufficient power) *)
  | LToShields (mod_name : string) (pts roll : Z)
  | LToHull (mod_name : string) (pts : Z) (dtype : string) (roll : Z)
  | LNoWeapons                                  (* No weapons installed .. *)
  | LEnemyStatus (name : string) (h a s : Z)
  | LRolls                                      (* Rolls: *)
  | LRoll (mod_name : string) (roll : Z)        (*  - ..: d20=.. *)
  | LPowerSuccess (roll boost : Z)              (* Emergency Power engaged! *)
  | LOverloadDamaged (roll penalty : Z)         (* Overload! Systems damaged *)
  | LOverload (roll penalty : Z)                (* Overload! *)
  | LScanFailed (roll : Z)
  | LScanResults (roll : Z)
  | LScanLine (dtype : string) (mult : Q) (tag : string)
  | LRetreatAttempt                             (* Attempting to retreat... *)
  | LRetreatSuccess                             (* Retreat successful! *)
  | LRetreatedFlag                              (* [RETREATED] *)
  | LRetreatFailed                              (* Retreat failed! .. *)
  | LTurnSkipped                                (* No valid action chosen *)
  | LEnemyMissed (name : string) (roll : Z)
  | LEnemyCrit (name : string) (roll : Z)
  | LShieldsHit (name : string) (absorbed : Z)  (* .. to your Shields. *)
  | LHullHit (name : string) (dmg : Z)          (* .. to your Hull. *)
  | LScavenged.                                 (* Passive systems .. +1 ammo *)

(* ===================================================================== *)
(** ** core/combat.py: the weapon volley                                  *)
(* ===================================================================== *)

(** What the loop of [perform_attack] carries from module to module: the
    enemy dict it mutates, the two resource counters, the log, the roll
    summary and the count of weapons met.  ([dmg_summary] is only ever
    written, never read, and is left out; its three keys are the damage
    types of the registry's weapons.) *)
Record Volley : Type := mk_volley {
  v_enemy : Enemy;
  v_power : Z;
  v_ammo  : Z;
  v_logs  : list LogLine;
  v_rolls : list (string * Z);
  v_used  : nat
}.

Definition v_log (l : LogLine) (v : Volley) : Volley :=
  mk_volley (v_enemy v) (v_power v) (v_ammo v) (v_logs v ++ [l])
            (v_rolls v) (v_used v).

(** Lines 241-245: the enemy's shields absorb first.  Returns the enemy,
    what is left of [applied], and the line logged. *)
Definition shields_absorb (mod_name : string) (attack_roll applied : Z)
    (e : Enemy) : Enemy * Z * list LogLine :=
  if 0 <? e_shields e then
    let to_shield := Z.min (e_shields e) applied in
    (set_e_shields (e_shields e - to_shield) e,
     applied - to_shield,
     [LToShields mod_name to_shield attack_roll])
  else (e, applied, []).

(** Lines 241-248: shields, then hull, with no floor on the hull. *)
Definition damage_enemy (mod_name dtype : string) (attack_roll applied : Z)
    (e : Enemy) : Enemy * list LogLine :=
  let '(e1, rest, l1) := shields_absorb mod_name attack_roll applied e in
  if 0 <? rest
  then (set_e_hull (e_hull e1 - rest) e1,
        l1 ++ [LToHull mod_name rest dtype attack_roll])
  else (e1, l1).

(** Lines 237-250: weakness multiplier, then mitigation. *)
Definition apply_shot (mod_name : string) (md : Module_)
    (attack_roll dmg : Z) (v : Volley) : Volley :=
  let dtype := default "kinetic" (damage_type md) in
  let multiplier := multiplier_of (weakness (v_enemy v)) dtype in
  let applied := int_mul dmg multiplier in
  let (e', ls) := damage_enemy mod_name dtype attack_roll applied (v_enemy v) in
  mk_volley e' (v_power v) (v_ammo v) (v_logs v ++ ls) (v_rolls v) (v_used v).

(** Lines 222-235: the resource check.  The ammo cost is looked at first;
    the power cost only when the ammo cost is not positive. *)
Definition check_resources (mod_name : string) (md : Module_)
    (attack_roll dmg : Z) (v : Volley) : Volley :=
  if 0 <? get0 (ammo_use md) then
    let need := get0 (ammo_use md) in
    if v_ammo v <? need
    then v_log (LNoAmmo mod_name) v
    else apply_shot mod_name md attack_roll dmg
           (mk_volley (v_enemy v) (v_power v) (v_ammo v - need)
                      (v_logs v) (v_rolls v) (v_used v))
  else if 0 <? get0 (power_use md) then
    let need := get0 (power_use md) in
    if v_power v <? need
    then v_log (LNoPower mod_name) v
    else apply_shot mod_name md attack_roll dmg
           (mk_volley (v_enemy v) (v_power v - need) (v_ammo v)
                      (v_logs v) (v_rolls v) (v_used v))
  else apply_shot mod_name md attack_roll dmg v.

(** Lines 207-210: the weapon is counted and its roll recorded. *)
Definition counted (mod_name : string) (attack_roll : Z) (v : Volley) : Volley :=
  mk_volley (v_enemy v) (v_power v) (v_ammo v) (v_logs v)
            (v_rolls v ++ [(mod_name, attack_roll)]) (S (v_used v)).

(** Lines 207-220, once the roll and the raw damage are drawn: count the
    weapon, record the roll, then critical / miss / normal hit. *)
Definition resolve_shot (mod_name : string) (md : Module_)
    (attack_roll dmg : Z) (v : Volley) : Volley :=
  let v0 := counted mod_name attack_roll v in
  if attack_roll =? 20 then
    check_resources mod_name md attack_roll (int_mul dmg (18 # 10))
                    (v_log (LCrit mod_name attack_roll) v0)
  else if attack_roll <=? 2 then
    v_log (LMisfire mod_name attack_roll) v0
  else check_resources mod_name md attack_roll dmg v0.

(** One iteration of the loop over the installed modules. *)
Definition fire_module (mod_name : string) (v : Volley) : Rand Volley :=
  match get_module mod_name with
  | Some md =>
      if String.eqb (m_type md) "weapon" then
        draw attack_roll <- roll_dice 20;
        let (base_min, base_max) := default (5, 10) (damage md) in
        draw dmg <- randint base_min base_max;
        ret (resolve_shot mod_name md attack_roll dmg v)
      else ret v
  | None => ret v
  end.

Fixpoint fire_all (modules : list string) (v : Volley) : Rand Volley :=
  match modules with
  | [] => ret v
  | mod_name :: rest =>
      draw v' <- fire_module mod_name v;
      fire_all rest v'
  end.

(** [perform_attack]: the enemy as the call leaves it, the log, and the
    updated power grid and ammo. *)
Definition perform_attack (enemy : Enemy) (modules : list string)
    (power ammo_ : Z) : Rand (Enemy * list LogLine * Z * Z) :=
  draw v <- fire_all modules (mk_volley enemy power ammo_ [LCombatLog] [] 0);
  let logs1 := if Nat.eqb (v_used v) 0 then v_logs v ++ [LNoWeapons]
               else v_logs v in
  let e := v_enemy v in
  let logs2 := logs1 ++ [LEnemyStatus (e_name e) (Z.max 0 (e_hull e))
                                      (e_armor e) (Z.max 0 (e_shields e));
                         LRolls]
                     ++ map (fun mr => LRoll (fst mr) (snd mr)) (v_rolls v) in
  ret (e, logs2, v_power v, v_ammo v).

(* ===================================================================== *)
(** ** core/combat.py: the special actions                                *)
(* ===================================================================== *)

(** [emergency_power(power_grid)] *)
Definition emergency_power (power : Z) : Rand (LogLine * Z) :=
  draw roll <- roll_dice 20;
  if 14 <=? roll then
    draw boost <- randint 12 30;
    let new_grid := Z.min 140 (power + boost) in
    ret (LPowerSuccess roll boost, new_grid)
  else
    draw penalty <- randint 8 25;
    let new_grid := Z.max 0 (power - penalty) in
    draw damaged <- chance 20;
    if damaged
    then ret (LOverloadDamaged roll penalty, new_grid)
    else ret (LOverload roll penalty, new_grid).

Definition scan_tag (mult : Q) : string :=
  if negb (Qle_bool mult 1) then "(w)"
  else if negb (Qle_bool 1 mult) then "(r)" else "".

(** [scan_enemy(enemy)] *)
Definition scan_enemy (enemy : Enemy) : Rand (list LogLine) :=
  draw roll <- roll_dice 20;
  if roll <=? 5 then ret [LScanFailed roll]
  else ret (LScanResults roll
            :: map (fun kv => LScanLine (fst kv) (snd kv) (scan_tag (snd kv)))
                   (weakness enemy)).

(** [handle_player_action]: the enemy as the call leaves it, the log of the
    action, and the updated power grid and ammo.  A successful retreat
    changes nothing but the log, whose last entry is the flag line. *)
Definition handle_player_action (player : Player) (enemy : Enemy)
    (power ammo_ : Z) (action : string)
  : Rand (Enemy * list LogLine * Z * Z) :=
  if String.eqb action "1" then
    perform_attack enemy (ship_modules player) power ammo_
  else if String.eqb action "2" then
    draw r <- emergency_power power;
    ret (enemy, [fst r], snd r, ammo_)
  else if String.eqb action "3" then
    draw scan_log <- scan_enemy enemy;
    ret (enemy, scan_log, power, ammo_)
  else if String.eqb action "4" then
    draw escaped <- chance 50;
    if escaped
    then ret (enemy, [LRetreatAttempt; LRetreatSuccess; LRetreatedFlag],
              power, ammo_)
    else ret (enemy, [LRetreatAttempt; LRetreatFailed], power, ammo_)
  else ret (enemy, [LTurnSkipped], power, ammo_).

(* ===================================================================== *)
(** ** core/combat.py: the enemy's attack                                 *)
(* ===================================================================== *)

(** Lines 329-337: the player's shields absorb first; what is left comes
    off the hull, which is floored at 0. *)
Definition damage_player (name : string) (dmg : Z) (p : Player)
  : Player * list LogLine :=
  let '(p1, rest, l1) :=
    if 0 <? shields p then
      let absorbed := Z.min (shields p) dmg in
      (set_shields (shields p - absorbed) p, dmg - absorbed,
       [LShieldsHit name absorbed])
    else (p, dmg, []) in
  if 0 <? rest
  then (set_hull (Z.max 0 (hull p1 - rest)) p1, l1 ++ [LHullHit name rest])
  else (p1, l1).

(** [enemy_attack(player, enemy)] *)
Definition enemy_attack (player : Player) (enemy : Enemy)
  : Rand (Player * list LogLine) :=
  draw roll <- roll_dice 20;
  if roll <=? 3 then ret (player, [LEnemyMissed (e_name enemy) roll])
  else
    draw dmg <- randint (fst (damage_range enemy)) (snd (damage_range enemy));
    let (dmg', l0) :=
      if roll =? 20
      then (int_mul dmg (18 # 10), [LEnemyCrit (e_name enemy) roll])
      else (dmg, []) in
    let (p', l1) := damage_player (e_name enemy) dmg' player in
    ret (p', l0 ++ l1).

(* ===================================================================== *)
(** ** core/combat.py: the combat session                                 *)
(* ===================================================================== *)

(** The variables of [engage_pirates] that live across turns.  [s_player]
    is the caller's player dict (mutated in place), [s_power] and [s_ammo]
    are the locals [player_power] and [player_ammo], [s_printed] collects
    the log handed to [print_combat_log] at the end of each turn. *)
Record Session : Type := mk_session {
  s_player  : Player;
  s_enemy   : Enemy;
  s_power   : Z;
  s_ammo    : Z;
  s_turn    : nat;
  s_printed : list (list LogLine)
}.

(** The guard of the [while] loop. *)
Definition active (s : Session) : bool :=
  (0 <? e_hull (s_enemy s)) && (0 <? hull (s_player s)).

(** What a turn has produced after lines 88-98: the player's action and,
    if the enemy's hull is still positive, the enemy's attack. *)
Record Exchange : Type := mk_exchange {
  x_player : Player;
  x_enemy  : Enemy;
  x_power  : Z;
  x_ammo   : Z;
  x_log    : list LogLine
}.

(** Lines 88-98 *)
Definition exchange (action : string) (s : Session) : Rand Exchange :=
  draw r <- handle_player_action (s_player s) (s_enemy s)
                                 (s_power s) (s_ammo s) action;
  let '(enemy1, p_log, power1, ammo1) := r in
  if 0 <? e_hull enemy1 then
    draw a <- enemy_attack (s_player s) enemy1;
    ret (mk_exchange (fst a) enemy1 power1 ammo1 (p_log ++ snd a))
  else ret (mk_exchange (s_player s) enemy1 power1 ammo1 p_log).

(** Line 101 *)
Definition regen_power (ship_stats : ShipData) (power : Z) : Z :=
  Z.min (power + Z.max 3 (default 5 (speed ship_stats) / 2))
        (power_grid ship_stats).

(** Lines 100-113: regeneration, printing of the turn's log, next turn. *)
Definition end_of_turn (ship_stats : ShipData) (s : Session) (x : Exchange)
  : Rand Session :=
  let power2 := regen_power ship_stats (x_power x) in
  draw scavenged <- chance 5;
  let (ammo2, battle_log) :=
    if scavenged then (x_ammo x + 1, x_log x ++ [LScavenged])
    else (x_ammo x, x_log x) in
  ret (mk_session (x_player x) (x_enemy x) power2 ammo2 (S (s_turn s))
                  (s_printed s ++ [battle_log])).

(** The body of the [while] loop. *)
Definition turn_body (ship_stats : ShipData) (action : string) (s : Session)
  : Rand Session :=
  draw x <- exchange action s;
  end_of_turn ship_stats s x.

(** The [while] loop, cut off after [fuel] turns; [inputs t] is the string
    that [combat_menu] returns in turn [t], that is the line the player
    typed with its surrounding whitespace already stripped. *)
Fixpoint combat_loop (fuel : nat) (ship_stats : ShipData)
    (inputs : nat -> string) (s : Session) : Rand (option Session) :=
  if active s then
    match fuel with
    | O => ret None
    | S fuel' =>
        draw s' <- turn_body ship_stats (inputs (s_turn s)) s;
        combat_loop fuel' ship_stats inputs s'
    end
  else ret (Some s).

(** What [engage_pirates] leaves behind: its return value, the player dict,
    the save file, and (for the statements below) the session as the loop
    left it. *)
Record Outcome : Type := mk_outcome {
  o_result  : bool;
  o_player  : Player;
  o_disk    : Disk;
  o_session : Session
}.

(** Lines 58-70: the session as the loop first sees it. *)
Definition start_session (player : Player) (enemy_template : Enemy)
  : Session * ShipData :=
  let (player1, ship_stats) := get_player_ship player in
  (mk_session player1 enemy_template (power_grid ship_stats) (ammo player1)
              1 [],
   ship_stats).

(** Lines 115-131 *)
Definition resolution (s : Session) (d : Disk) : Rand Outcome :=
  let p := s_player s in
  if hull p <=? 0 then
    ret (mk_outcome false p (save_player p d) s)
  else
    draw reward <- randint 150 400;
    let p' := set_credits (credits p + reward) p in
    ret (mk_outcome true p' (save_player p' d) s).

(** [engage_pirates(player, enemy_template)]; [None] when the loop is still
    running after [fuel] turns. *)
Definition engage_pirates (fuel : nat) (inputs : nat -> string)
    (player : Player) (enemy_template : Enemy) (d : Disk)
  : Rand (option Outcome) :=
  let (s0, ship_stats) := start_session player enemy_template in
  draw r <- combat_loop fuel ship_stats inputs s0;
  match r with
  | Some s => draw o <- resolution s d; ret (Some o)
  | None => ret None
  end.

(** [combat_menu()]: the line the player types, stripped (line 144).
    [strip] stands for Python's [str.strip()]; nothing below depends on
    which characters it takes for whitespace. *)
Definition combat_menu (strip : string -> string) (line : string) : string :=
  strip line.

(* ===================================================================== *)
(** ** core/utils.py: the other dice                                      *)
(* ===================================================================== *)

(** [roll_with_advantage(sides)]: two draws, the higher. *)
Definition roll_with_advantage (sides : Z) : Rand Z :=
  draw a <- randint 1 sides;
  draw b <- randint 1 sides;
  ret (Z.max a b).

(** [roll_with_disadvantage(sides)]: two draws, the lower. *)
Definition roll_with_disadvantage (sides : Z) : Rand Z :=
  draw a <- randint 1 sides;
  draw b <- randint 1 sides;
  ret (Z.min a b).

(** [skill_check(dc, modifier)]: the success flag and the total. *)
Definition skill_check (dc modifier : Z) : Rand (bool * Z) :=
  draw roll <- roll_dice 20;
  let total := roll + modifier in
  ret (dc <=? total, total).

(* ===================================================================== *)
(** ** core/modules.py: installing and removing modules                   *)
(* ===================================================================== *)

Definition set_ship_modules (mods : list string) (p : Player) : Player :=
  mk_player (p_name p) (credits p) (ammo p) (hull p) (armor p) (shields p)
            (ship_data p) mods.

(** [install_module(player, module_name)]: the returned flag and the
    player as the call leaves it.  The slot count is the [modules] key of
    the ship data. *)
Definition install_module (p : Player) (module_name : string) : bool * Player :=
  let installed := ship_modules p in
  if sd_modules (ship_data p) <=? Z.of_nat (length installed) then (false, p)
  else match MODULES !! module_name with
       | None => (false, p)
       | Some _ => (true, set_ship_modules (installed ++ [module_name]) p)
       end.

(** [list.remove(x)]: the first occurrence goes. *)
Fixpoint list_remove (x : string) (l : list string) : list string :=
  match l with
  | [] => []
  | y :: rest => if String.eqb y x then rest else y :: list_remove x rest
  end.

(** [remove_module(player, module_name)] *)
Definition remove_module (p : Player) (module_name : string) : bool * Player :=
  let installed := ship_modules p in
  if existsb (String.eqb module_name) installed
  then (true, set_ship_modules (list_remove module_name installed) p)
  else (false, p).

(* ===================================================================== *)
(** ** core/player.py: cargo, hangar services and ship loss               *)
(* ===================================================================== *)

(** The player dict with the further keys these functions use: the ship's
    name, the fuel, the cargo hold (item to quantity), the insurance flag
    and the debt.  ([location], [docked_at] and [missions] are touched by
    none of them.) *)
Record Pilot : Type := mk_pilot {
  core      : Player;
  ship      : string;
  fuel      : Z;
  cargo     : gmap string Z;
  insurance : bool;
  debt      : Z
}.

Definition set_core (c : Player) (p : Pilot) : Pilot :=
  mk_pilot c (ship p) (fuel p) (cargo p) (insurance p) (debt p).

Definition set_cargo (c : gmap string Z) (p : Pilot) : Pilot :=
  mk_pilot (core p) (ship p) (fuel p) c (insurance p) (debt p).

(** The save file, now holding the whole dict. *)
Definition PilotDisk : Type := option Pilot.

(** [eff.get(key, 0)] on an effect dict. *)
Fixpoint effect_get (eff : list (string * Z)) (key : string) : Z :=
  match eff with
  | [] => 0
  | (k, v) :: rest => if String.eqb k key then v else effect_get rest key
  end.

(** The loop of [get_cargo_capacity]. *)
Fixpoint cargo_bonuses (mods : list string) (base : Z) : Z :=
  match mods with
  | [] => base
  | mod_name :: rest =>
      match MODULES !! mod_name with
      | Some md =>
          if String.eqb (m_type md) "utility"
          then cargo_bonuses rest (base + effect_get (effect md) "cargo_bonus")
          else cargo_bonuses rest base
      | None => cargo_bonuses rest base
      end
  end.

(** [get_cargo_capacity(player)] *)
Definition get_cargo_capacity (p : Player) : Z :=
  cargo_bonuses (ship_modules p) (cargo_capacity (ship_data p)).

(** [sum(player["cargo"].values())] *)
Definition cargo_load (c : gmap string Z) : Z :=
  map_fold (fun _ qty acc => qty + acc) 0 c.

(** [add_cargo(player, item, qty)]: the returned flag, the player and the
    save file as the call leaves them. *)
Definition add_cargo (p : Pilot) (item : string) (qty : Z) (d : PilotDisk)
  : bool * Pilot * PilotDisk :=
  let cap := get_cargo_capacity (core p) in
  let current := cargo_load (cargo p) in
  if cap <? current + qty then (false, p, d)
  else
    let p' := set_cargo (<[item := default 0 (cargo p !! item) + qty]> (cargo p))
                        p in
    (true, p', Some p').

(** [remove_cargo(player, item, qty)]; [None] is the [KeyError] of
    [player["cargo"][item] -= qty] on an item that is not in the hold. *)
Definition remove_cargo (p : Pilot) (item : string) (qty : Z) (d : PilotDisk)
  : option (bool * Pilot * PilotDisk) :=
  if default 0 (cargo p !! item) <? qty then Some (false, p, d)
  else
    match cargo p !! item with
    | None => None
    | Some have =>
        let left := have - qty in
        let c' := if left <=? 0 then delete item (cargo p)
                  else <[item := left]> (cargo p) in
        let p' := set_cargo c' p in
        Some (true, p', Some p')
    end.

(** The body that [repair_ship] and [refuel_ship] share, on the level
    (hull or fuel) and the credits: nothing to do at 100 or above; the
    whole gap if the credits cover it; otherwise as many units as the
    credits buy, for all the credits.  [None] is the [ZeroDivisionError] of
    [credits // 0]; [Some None] is the early return without a save. *)
Definition top_up (level credits_ unit_cost : Z) : option (option (Z * Z)) :=
  let missing := 100 - level in
  if missing <=? 0 then Some None
  else
    let cost := missing * unit_cost in
    if credits_ <? cost then
      if unit_cost =? 0 then None
      else Some (Some (level + credits_ / unit_cost, 0))
    else Some (Some (100, credits_ - cost)).

(** [repair_ship(player, cost_per_hp)] *)
Definition repair_ship (p : Pilot) (cost_per_hp : Z) (d : PilotDisk)
  : option (Pilot * PilotDisk) :=
  match top_up (hull (core p)) (credits (core p)) cost_per_hp with
  | None => None
  | Some None => Some (p, d)
  | Some (Some (hull', credits')) =>
      let p' := set_core (set_credits credits' (set_hull hull' (core p))) p in
      Some (p', Some p')
  end.

(** [refuel_ship(player, cost_per_unit)] *)
Definition refuel_ship (p : Pilot) (cost_per_unit : Z) (d : PilotDisk)
  : option (Pilot * PilotDisk) :=
  match top_up (fuel p) (credits (core p)) cost_per_unit with
  | None => None
  | Some None => Some (p, d)
  | Some (Some (fuel', credits')) =>
      let p' := mk_pilot (set_credits credits' (core p)) (ship p) fuel'
                         (cargo p) (insurance p) (debt p) in
      Some (p', Some p')
  end.

(** [insure_ship(player, cost)] *)
Definition insure_ship (p : Pilot) (cost : Z) (d : PilotDisk)
  : Pilot * PilotDisk :=
  if insurance p then (p, d)
  else if credits (core p) <? cost then (p, d)
  else
    let p' := mk_pilot (set_credits (credits (core p) - cost) (core p))
                       (ship p) (fuel p) (cargo p) true (debt p) in
    (p', Some p').

(** The starter fit that [handle_ship_loss] issues: hull 100, the Rifter's
    ship data and its two modules; name, ammo, armor and shields stay. *)
Definition reissue (credits_ : Z) (c : Player) : Player :=
  mk_player (p_name c) credits_ (ammo c) 100 (armor c) (shields c)
            (mk_ship 4 50 100 None) ["Pulse Laser"; "Basic Mining Drill"].

(** [handle_ship_loss(player)] *)
Definition handle_ship_loss (p : Pilot) (d : PilotDisk) : Pilot * PilotDisk :=
  let p' :=
    if insurance p then
      mk_pilot (reissue (credits (core p)) (core p)) "Rifter" (fuel p)
               (cargo p) false (debt p)
    else
      mk_pilot (reissue (Z.max 0 (credits (core p) - 500)) (core p)) "Rifter"
               (fuel p) (cargo p) (insurance p) (debt p + 2000) in
  (p', Some p').

(* ===================================================================== *)
(** ** Vocabulary of the statements and fixtures                          *)
(* ===================================================================== *)

(** The two formulas of the specification, word for word. *)
Definition spec_shields (shields_ d : Z) : Z := Z.max 0 (shields_ - d).
Definition spec_hull (hull_ shields_ d : Z) : Z := hull_ - Z.max 0 (d - shields_).

(** A ship limping home: hull 5, shields down. *)
Definition limping_player : Player := set_hull 5 (set_shields 0 new_player).

(** How a step may move the two counters: each is left alone or lowered to
    a value that is not negative. *)
Definition spends (power ammo_ power' ammo' : Z) : Prop :=
  (ammo' = ammo_ \/ 0 <= ammo' < ammo_) /\
  (power' = power \/ 0 <= power' < power).

(** The registry half of C6, word for word: of the two costs of a module at
    most one is non-zero. *)
Definition at_most_one_cost (md : Module_) : Prop :=
  get0 (ammo_use md) = 0 \/ get0 (power_use md) = 0.

(** How often a module is installed. *)
Definition installed (name : string) (mods : list string) : Z :=
  Z.of_nat (count_occ String.string_dec mods name).

(** What one installed module does to the player and to the ship copy: of
    the whole registry only the Shield Booster and the Reactor Upgrade do
    anything. *)
Definition module_bonus (md : option Module_) (p : Player) (ship : ShipData)
  : Player * ShipData :=
  match md with
  | Some md => if String.eqb (m_type md) "utility"
               then apply_effect (effect md) p ship else (p, ship)
  | None => (p, ship)
  end.

(** The same by name: 15 shields for a Shield Booster, 10 power for a
    Reactor Upgrade, nothing for any other name. *)
Definition bonus_of (name : string) (p : Player) (ship : ShipData)
  : Player * ShipData :=
  (set_shields
     (shields p + (if String.eqb name "Shield Booster" then 15 else 0)) p,
   set_power_grid
     (power_grid ship + (if String.eqb name "Reactor Upgrade" then 10 else 0))
     ship).

(** Three Plasma Cannons and a Shield Booster on the starter ship. *)
Definition boosted_player : Player :=
  mk_player "ShiroWalker" 1000 50 100 100 100 (mk_ship 4 50 100 None)
            ["Plasma Cannon"; "Plasma Cannon"; "Plasma Cannon";
             "Shield Booster"].

(** Three critical hits with top damage sink the raider in the first turn;
    nothing is scavenged and the salvage is 150 credits. *)
Definition three_crits : rng := tape [19; 12; 19; 12; 19; 12; 99; 0].

(** The keys of the player dict that combat never writes. *)
Definition untouched (p p' : Player) : Prop :=
  ammo p' = ammo p /\ credits p' = credits p /\ ship_data p' = ship_data p.

(** Three Plasma Cannons and a Pulse Laser on the starter ship. *)
Definition gunship : Player :=
  mk_player "ShiroWalker" 1000 50 100 100 100 (mk_ship 4 50 100 None)
            ["Plasma Cannon"; "Plasma Cannon"; "Plasma Cannon"; "Pulse Laser"].

(** Three critical Plasma hits with top damage (28, so 50, so 60 against
    the blast weakness), a plain Pulse Laser hit for 12 (10 after the
    energy resistance), one ammo scavenged, salvage of 150 credits. *)
Definition killing_volley : rng := tape [19; 12; 19; 12; 19; 12; 9; 0; 0; 0].

(** [name] is in the registry with type weapon: the test of line 205. *)
Definition is_weapon (name : string) : bool :=
  match get_module name with
  | Some md => String.eqb (m_type md) "weapon"
  | None => false
  end.

(** The installed modules that a volley fires, in installation order. *)
Definition weapons_of (modules : list string) : list string :=
  List.filter is_weapon modules.

(** No multiplier of the weakness map is negative. *)
Definition nonneg_weakness (w : list (string * Q)) : Prop :=
  Forall (fun kv => 0 <= Qnum (snd kv)) w.

(** What hits may do to an enemy: shields go down but not below zero, the
    hull goes down, and it goes down only once the shields are at zero;
    the rest of the record stays. *)
Definition worn_down (e e' : Enemy) : Prop :=
  0 <= e_shields e' <= e_shields e /\
  e_hull e' <= e_hull e /\
  (e_hull e' < e_hull e -> e_shields e' = 0) /\
  e_name e' = e_name e /\ e_class e' = e_class e /\
  e_armor e' = e_armor e /\ weakness e' = weakness e /\
  damage_range e' = damage_range e /\ accuracy e' = accuracy e.

(** Every line but the "No weapons installed" line. *)
Definition not_no_weapons (l : LogLine) : bool :=
  match l with LNoWeapons => false | _ => true end.

(** The cargo bonus of a module by name: 25 for a Cargo Pod, 60 for a
    Medium Cargo Bay, nothing for any other name. *)
Definition cargo_bonus_of (name : string) : Z :=
  (if String.eqb name "Cargo Pod" then 25 else 0)
  + (if String.eqb name "Medium Cargo Bay" then 60 else 0).

(** The cargo bonus of a registry entry as the loop of
    [get_cargo_capacity] reads it. *)
Definition cargo_bonus_read (md : option Module_) : Z :=
  match md with
  | Some md => if String.eqb (m_type md) "utility"
               then effect_get (effect md) "cargo_bonus" else 0
  | None => 0
  end.

(** Every quantity in the hold is positive. *)
Definition stocked (c : gmap string Z) : Prop :=
  forall item qty, c !! item = Some qty -> 0 < qty.

(** [n] ship losses in a row, each one a call of [handle_ship_loss]. *)
Fixpoint ship_losses (n : nat) (p : Pilot) (d : PilotDisk) : Pilot * PilotDisk :=
  match n with
  | O => (p, d)
  | S n' => let (p', d') := handle_ship_loss p d in ship_losses n' p' d'
  end.

(* ===================================================================== *)
(** * Properties                                                          *)
(* ===================================================================== *)

(** ** The registry and the starter record *)

Example get_module_pulse :
  get_module "Pulse Laser" = Some (weapon "energy" (12, 22) 0 15).
Proof. vm_compute. reflexivity. Qed.

Example get_module_unknown : get_module "Basic Laser Cannon" = None.
Proof. vm_compute. reflexivity. Qed.

Example get_player_ship_new :
  get_player_ship new_player = (new_player, mk_ship 4 50 100 None).
Proof. vm_compute. reflexivity. Qed.

(** ** The random source *)

Lemma randint_range (a b : Z) (g : rng) :
  a <= b -> a <= fst (randint a b g) <= b.
Proof.
  intros Hab. unfold randint. simpl.
  pose proof (Z.mod_pos_bound (entropy g (cursor g)) (b - a + 1)) as Hm.
  lia.
Qed.

Lemma roll_dice_range (g : rng) : 1 <= fst (roll_dice 20 g) <= 20.
Proof. apply randint_range. lia. Qed.

(** Truncation of a product with 1.8, spelled out. *)
Lemma int_mul_crit (x : Z) : int_mul x (18 # 10) = Z.quot (x * 18) 10.
Proof. reflexivity. Qed.

(** ** The mitigation routine *)

Section Mitigation.

Variables (name dtype : string) (roll : Z).

Lemma damage_enemy_shields (d : Z) (e : Enemy) :
  0 <= e_shields e -> 0 <= d ->
  e_shields (fst (damage_enemy name dtype roll d e))
  = spec_shields (e_shields e) d.
Proof.
  intros Hs Hd. unfold damage_enemy, shields_absorb, spec_shields.
  destruct (0 <? e_shields e) eqn:Hpos;
    [apply Z.ltb_lt in Hpos | apply Z.ltb_ge in Hpos];
    match goal with |- context [0 <? ?r] => destruct (0 <? r) end;
    simpl; lia.
Qed.

Lemma damage_enemy_hull (d : Z) (e : Enemy) :
  0 <= e_shields e -> 0 <= d ->
  e_hull (fst (damage_enemy name dtype roll d e))
  = spec_hull (e_hull e) (e_shields e) d.
Proof.
  intros Hs Hd. unfold damage_enemy, shields_absorb, spec_hull.
  destruct (0 <? e_shields e) eqn:Hpos;
    [apply Z.ltb_lt in Hpos | apply Z.ltb_ge in Hpos];
    match goal with |- context [0 <? ?r] => destruct (0 <? r) eqn:Hr end;
    [apply Z.ltb_lt in Hr | apply Z.ltb_ge in Hr
    |apply Z.ltb_lt in Hr | apply Z.ltb_ge in Hr];
    simpl; lia.
Qed.

Lemma damage_player_shields (d : Z) (p : Player) :
  0 <= shields p -> 0 <= d ->
  shields (fst (damage_player name d p)) = spec_shields (shields p) d.
Proof.
  intros Hs Hd. unfold damage_player, spec_shields.
  destruct (0 <? shields p) eqn:Hpos;
    [apply Z.ltb_lt in Hpos | apply Z.ltb_ge in Hpos];
    match goal with |- context [0 <? ?r] => destruct (0 <? r) end;
    simpl; lia.
Qed.

Lemma damage_player_hull (d : Z) (p : Player) :
  0 <= shields p -> 0 <= d ->
  hull (fst (damage_player name d p))
  = if shields p <? d
    then Z.max 0 (spec_hull (hull p) (shields p) d)
    else hull p.
Proof.
  intros Hs Hd. unfold damage_player, spec_hull.
  destruct (shields p <? d) eqn:Hlt;
    [apply Z.ltb_lt in Hlt | apply Z.ltb_ge in Hlt];
    (destruct (0 <? shields p) eqn:Hpos;
     [apply Z.ltb_lt in Hpos | apply Z.ltb_ge in Hpos]);
    match goal with |- context [0 <? ?r] => destruct (0 <? r) eqn:Hr end;
    try (apply Z.ltb_lt in Hr); try (apply Z.ltb_ge in Hr);
    simpl; lia.
Qed.

(** Whatever the damage, a hull that is written by the enemy's attack is
    written as a non-negative number. *)
Lemma damage_player_hull_nonneg (d : Z) (p : Player) :
  0 <= hull p -> 0 <= hull (fst (damage_player name d p)).
Proof.
  intros Hh. unfold damage_player.
  destruct (0 <? shields p);
    match goal with |- context [0 <? ?r] => destruct (0 <? r) end;
    simpl; lia.
Qed.

End Mitigation.

Lemma enemy_attack_hull_nonneg (p : Player) (e : Enemy) (g : rng) :
  0 <= hull p -> 0 <= hull (fst (fst (enemy_attack p e g))).
Proof.
  intros Hh. unfold enemy_attack, bind, ret.
  destruct (roll_dice 20 g) as [roll g1].
  destruct (roll <=? 3); [exact Hh |].
  destruct (randint _ _ g1) as [dmg g2].
  destruct (roll =? 20).
  - pose proof (damage_player_hull_nonneg (e_name e) (int_mul dmg (18 # 10)) p Hh).
    destruct (damage_player _ _ p). assumption.
  - pose proof (damage_player_hull_nonneg (e_name e) dmg p Hh).
    destruct (damage_player _ _ p). assumption.
Qed.

(** C3, as stated, fails for the player as target.  The raider rolls 10 and
    draws 10 damage against hull 5 with no shields: the code leaves hull 0
    where the formula [hull - max(0, d - shields)] gives -5. *)
Lemma hull_formula_fails_for_player :
  let p := limping_player in
  let out := fst (enemy_attack p PIRATE_TEMPLATE (tape [9; 2])) in
  snd out = [LHullHit "Sholen Raider" 10] /\
  hull (fst out) = 0 /\
  spec_hull (hull p) (shields p) 10 = -5 /\
  hull (fst out) <> spec_hull (hull p) (shields p) 10.
Proof. vm_compute. repeat split; congruence. Qed.

(** C3 (amended): for effective damage [d >= 0] against non-negative
    shields, both targets end with shields [max(0, shields - d)]; the
    enemy's hull ends at [hull - max(0, d - shields)] with no floor, while
    the player's hull ends at [max(0, hull - max(0, d - shields))] when the
    damage exceeds the shields and is untouched otherwise. *)
Theorem mitigation_enemy_exact_player_floored
    (name dtype : string) (roll d : Z) (e : Enemy) (p : Player) :
  0 <= d -> 0 <= e_shields e -> 0 <= shields p ->
  e_shields (fst (damage_enemy name dtype roll d e))
    = spec_shields (e_shields e) d /\
  e_hull (fst (damage_enemy name dtype roll d e))
    = spec_hull (e_hull e) (e_shields e) d /\
  shields (fst (damage_player name d p)) = spec_shields (shields p) d /\
  hull (fst (damage_player name d p))
    = (if shields p <? d
       then Z.max 0 (spec_hull (hull p) (shields p) d)
       else hull p) /\
  0 <= e_shields (fst (damage_enemy name dtype roll d e)) /\
  0 <= shields (fst (damage_player name d p)).
Proof.
  intros Hd He Hp.
  rewrite damage_enemy_shields, damage_enemy_hull by assumption.
  rewrite damage_player_shields, damage_player_hull by assumption.
  unfold spec_shields. repeat split; lia.
Qed.

Lemma mitigation_enemy_exact_player_floored_witness :
  0 <= 70 /\ 0 <= e_shields PIRATE_TEMPLATE /\ 0 <= shields limping_player /\
  e_hull (fst (damage_enemy "Beam Lance" "energy" 12 70 PIRATE_TEMPLATE)) = 90 /\
  hull (fst (damage_player "Beam Lance" 70 limping_player)) = 0.
Proof.
  assert (H0 : 0 <= 70) by lia.
  assert (H1 : 0 <= e_shields PIRATE_TEMPLATE) by (simpl; lia).
  assert (H2 : 0 <= shields limping_player) by (simpl; lia).
  destruct (mitigation_enemy_exact_player_floored
              "Beam Lance" "energy" 12 70 PIRATE_TEMPLATE limping_player
              H0 H1 H2) as (_ & He & _ & Hh & _).
  split; [exact H0 |]. split; [exact H1 |]. split; [exact H2 |].
  split; [exact He | exact Hh].
Defined.

(** In a turn of the session the enemy attacks, if at all, a player whose
    hull the loop guard has found positive. *)
Lemma exchange_hull_nonneg (action : string) (s : Session) (g : rng) :
  active s = true -> 0 <= hull (x_player (fst (exchange action s g))).
Proof.
  intros Hact. unfold active in Hact.
  apply andb_true_iff in Hact. destruct Hact as [_ Hh].
  apply Z.ltb_lt in Hh.
  unfold exchange, bind, ret.
  destruct (handle_player_action _ _ _ _ action g)
    as [[[[enemy1 p_log] power1] ammo1] g1].
  destruct (0 <? e_hull enemy1); [| cbn; lia].
  pose proof (enemy_attack_hull_nonneg (s_player s) enemy1 g1) as H.
  destruct (enemy_attack (s_player s) enemy1 g1) as [a g2].
  cbn in *. lia.
Qed.

(** C8: after every enemy attack the player's hull is not negative.  The
    write to the hull is [max(0, hull - rest)] however large the rest is,
    so an attack on a hull that is not negative (in a session: one the loop
    guard has found positive) leaves it not negative.  A volley hit on the
    enemy subtracts the rest with no floor, so damage above the enemy's
    shields plus hull leaves the enemy's hull negative. *)
Theorem player_hull_floored_enemy_hull_unfloored
    (s : Session) (action : string) (p : Player) (e target : Enemy) (g : rng)
    (name dtype : string) (roll d : Z) :
  active s = true ->
  0 <= hull p -> 0 <= e_hull target -> 0 <= e_shields target ->
  e_shields target + e_hull target < d ->
  0 <= hull (x_player (fst (exchange action s g))) /\
  0 <= hull (fst (fst (enemy_attack p e g))) /\
  0 <= hull (fst (damage_player (e_name e) d p)) /\
  e_hull (fst (damage_enemy name dtype roll d target))
    = e_hull target - (d - e_shields target) /\
  e_hull (fst (damage_enemy name dtype roll d target)) < 0.
Proof.
  intros Hact Hh Hd0 Hs Hd.
  split; [apply exchange_hull_nonneg; exact Hact |].
  split; [apply enemy_attack_hull_nonneg; exact Hh |].
  split; [apply damage_player_hull_nonneg; exact Hh |].
  assert (He : e_hull (fst (damage_enemy name dtype roll d target))
               = e_hull target - (d - e_shields target)).
  { unfold damage_enemy, shields_absorb.
    destruct (0 <? e_shields target) eqn:Hpos;
      [apply Z.ltb_lt in Hpos | apply Z.ltb_ge in Hpos];
      match goal with |- context [0 <? ?r] => destruct (0 <? r) eqn:Hr end;
      try (apply Z.ltb_lt in Hr); try (apply Z.ltb_ge in Hr);
      simpl in *; lia. }
  split; [exact He | lia].
Qed.

(** The raider's critical hit for 32 on a hull of 5 leaves hull 0; 200
    points on the raider's 60 shields and 100 hull leave hull -40. *)
Lemma player_hull_floored_enemy_hull_unfloored_witness :
  let s := mk_session limping_player PIRATE_TEMPLATE 100 50 1 [] in
  active s = true /\
  0 <= hull limping_player /\ 0 <= e_hull PIRATE_TEMPLATE /\
  0 <= e_shields PIRATE_TEMPLATE /\
  e_shields PIRATE_TEMPLATE + e_hull PIRATE_TEMPLATE < 200 /\
  hull (fst (fst (enemy_attack limping_player PIRATE_TEMPLATE
                               (tape [19; 10])))) = 0 /\
  0 <= hull (x_player (fst (exchange "3" s (tape [19; 19; 10])))) /\
  e_hull (fst (damage_enemy "Beam Lance" "energy" 20 200 PIRATE_TEMPLATE))
    = -40.
Proof.
  intros s.
  assert (Ha : active s = true) by reflexivity.
  assert (H0 : 0 <= hull limping_player) by (simpl; lia).
  assert (H1 : 0 <= e_hull PIRATE_TEMPLATE) by (simpl; lia).
  assert (H2 : 0 <= e_shields PIRATE_TEMPLATE) by (simpl; lia).
  assert (H3 : e_shields PIRATE_TEMPLATE + e_hull PIRATE_TEMPLATE < 200)
    by (simpl; lia).
  destruct (player_hull_floored_enemy_hull_unfloored
              s "3" limping_player PIRATE_TEMPLATE PIRATE_TEMPLATE
              (tape [19; 19; 10]) "Beam Lance" "energy" 20 200
              Ha H0 H1 H2 H3)
    as (Hx & _ & _ & He & _).
  split; [exact Ha |]. split; [exact H0 |]. split; [exact H1 |].
  split; [exact H2 |]. split; [exact H3 |].
  split; [vm_compute; reflexivity |]. split; [exact Hx | exact He].
Defined.

(** ** The power grid *)

Lemma regen_power_above_cap (ship : ShipData) (power : Z) :
  power_grid ship < power ->
  regen_power ship power = power_grid ship.
Proof.
  intros Hlt. unfold regen_power.
  pose proof (Z.le_max_l 3 (default 5 (speed ship) / 2)). lia.
Qed.

(** A successful Emergency Power: the result is capped by the constant
    140, whatever the ship's own cap. *)
Lemma emergency_power_success (power : Z) (g : rng) :
  14 <= fst (roll_dice 20 g) ->
  exists boost, 12 <= boost <= 30 /\
    snd (fst (emergency_power power g)) = Z.min 140 (power + boost).
Proof.
  intros Hroll. unfold emergency_power, bind, ret.
  destruct (roll_dice 20 g) as [roll g1]. simpl in Hroll.
  destruct (14 <=? roll) eqn:Hb; [| apply Z.leb_gt in Hb; lia].
  pose proof (randint_range 12 30 g1) as Hr.
  destruct (randint 12 30 g1) as [boost g2]. cbn [fst snd] in *.
  exists boost. split; [lia | reflexivity].
Qed.

(** A failed Emergency Power: the penalty is floored at 0. *)
Lemma emergency_power_failure (power : Z) (g : rng) :
  fst (roll_dice 20 g) < 14 ->
  exists penalty, 8 <= penalty <= 25 /\
    snd (fst (emergency_power power g)) = Z.max 0 (power - penalty).
Proof.
  intros Hroll. unfold emergency_power, bind, ret.
  destruct (roll_dice 20 g) as [roll g1]. simpl in Hroll.
  destruct (14 <=? roll) eqn:Hb; [apply Z.leb_le in Hb; lia |].
  pose proof (randint_range 8 25 g1) as Hr.
  destruct (randint 8 25 g1) as [penalty g2]. cbn [fst snd] in *.
  exists penalty. split; [lia |].
  destruct (chance 20 g2) as [[|] g3]; reflexivity.
Qed.

(** C9: the end-of-turn step is not monotone.  Every turn sets the power
    to [min(power + max(3, speed // 2), cap)] of the power the exchange
    left, with the ship's own power grid as cap, whereas a successful
    Emergency Power is capped at the constant 140.  So the step lowers the
    power exactly when it is above the ship's cap, and then strictly, to
    the cap; below the cap it raises it.  On a ship whose cap is below 140
    a successful Emergency Power taken at (or within 11 of) the cap
    produces a power above the cap, which the step then lowers. *)
Theorem regen_lowers_power_above_cap
    (ship : ShipData) (action : string) (s : Session)
    (power power0 : Z) (g g' : rng) :
  let cap := power_grid ship in
  let step := Z.max 3 (default 5 (speed ship) / 2) in
  let boosted := snd (fst (emergency_power power0 g)) in
  s_power (fst (turn_body ship action s g'))
    = Z.min (x_power (fst (exchange action s g')) + step) cap /\
  regen_power ship power = Z.min (power + step) cap /\
  (regen_power ship power < power <-> cap < power) /\
  (cap < power -> regen_power ship power = cap) /\
  (power + step <= cap ->
     regen_power ship power = power + step /\ power + 3 <= regen_power ship power) /\
  (14 <= fst (roll_dice 20 g) ->
     exists boost, 12 <= boost <= 30 /\ boosted = Z.min 140 (power0 + boost)) /\
  (14 <= fst (roll_dice 20 g) -> cap < 140 -> cap <= power0 + 11 ->
     cap < boosted /\ regen_power ship boosted = cap /\
     regen_power ship boosted < boosted).
Proof.
  cbv zeta.
  pose proof (Z.le_max_l 3 (default 5 (speed ship) / 2)) as Hstep.
  split.
  { unfold turn_body, bind.
    destruct (exchange action s g') as [x g1]. cbn [fst].
    unfold end_of_turn, bind, ret.
    destruct (chance 5 g1) as [[|] g2]; reflexivity. }
  split; [reflexivity |].
  split; [unfold regen_power; lia |].
  split; [apply regen_power_above_cap |].
  split; [unfold regen_power; lia |].
  split; [apply emergency_power_success |].
  intros Hroll Hcap Hnear.
  destruct (emergency_power_success power0 g Hroll) as (boost & Hb & Heq).
  assert (Hgt : power_grid ship < snd (fst (emergency_power power0 g)))
    by (rewrite Heq; lia).
  split; [exact Hgt |].
  rewrite (regen_power_above_cap ship _ Hgt). split; [reflexivity | exact Hgt].
Qed.

(** On the starter ship (cap 100, no speed key, so a step of 3): a roll of
    14 with the smallest boost takes 100 to 112, which the step lowers to
    100; from 50 the step gives 53. *)
Lemma regen_lowers_power_above_cap_witness :
  let ship := ship_data new_player in
  let g := tape [13; 0] in
  power_grid ship < 112 /\ 14 <= fst (roll_dice 20 g) /\
  power_grid ship < 140 /\ power_grid ship <= 100 + 11 /\
  snd (fst (emergency_power 100 g)) = 112 /\
  regen_power ship 112 = 100 /\
  regen_power ship (snd (fst (emergency_power 100 g)))
    < snd (fst (emergency_power 100 g)) /\
  regen_power ship 50 = 53.
Proof.
  intros ship g.
  assert (H0 : power_grid ship < 112) by (simpl; lia).
  assert (H1 : 14 <= fst (roll_dice 20 g)) by (vm_compute; discriminate).
  assert (H2 : power_grid ship < 140) by (simpl; lia).
  assert (H3 : power_grid ship <= 100 + 11) by (simpl; lia).
  destruct (regen_lowers_power_above_cap ship "2"
              (fst (start_session new_player PIRATE_TEMPLATE)) 112 100 g g)
    as (_ & _ & _ & Hcap & _ & _ & Hboost).
  destruct (regen_lowers_power_above_cap ship "2"
              (fst (start_session new_player PIRATE_TEMPLATE)) 50 100 g g)
    as (_ & Hformula & _).
  destruct (Hboost H1 H2 H3) as (_ & _ & Hlower).
  split; [exact H0 |]. split; [exact H1 |]. split; [exact H2 |].
  split; [exact H3 |]. split; [reflexivity |].
  split; [exact (Hcap H0) |]. split; [exact Hlower |].
  rewrite Hformula. reflexivity.
Defined.

(** ** The weapon volley *)

Lemma spends_refl (power ammo_ : Z) : spends power ammo_ power ammo_.
Proof. split; left; reflexivity. Qed.

Lemma spends_trans (p0 a0 p1 a1 p2 a2 : Z) :
  spends p0 a0 p1 a1 -> spends p1 a1 p2 a2 -> spends p0 a0 p2 a2.
Proof. unfold spends. lia. Qed.

Lemma apply_shot_counters (mod_name : string) (md : Module_)
    (attack_roll dmg : Z) (v : Volley) :
  v_power (apply_shot mod_name md attack_roll dmg v) = v_power v /\
  v_ammo (apply_shot mod_name md attack_roll dmg v) = v_ammo v.
Proof.
  unfold apply_shot.
  destruct (damage_enemy _ _ _ _ _). split; reflexivity.
Qed.

(** The resource check, case by case. *)
Lemma check_resources_cases (mod_name : string) (md : Module_)
    (attack_roll dmg : Z) (v : Volley) :
  let v' := check_resources mod_name md attack_roll dmg v in
  let need_ammo := get0 (ammo_use md) in
  let need_power := get0 (power_use md) in
  (0 < need_ammo -> v_ammo v < need_ammo ->
     v_ammo v' = v_ammo v /\ v_power v' = v_power v /\
     v_enemy v' = v_enemy v) /\
  (0 < need_ammo -> need_ammo <= v_ammo v ->
     v_ammo v' = v_ammo v - need_ammo /\ v_power v' = v_power v) /\
  (need_ammo <= 0 -> 0 < need_power -> v_power v < need_power ->
     v_ammo v' = v_ammo v /\ v_power v' = v_power v /\
     v_enemy v' = v_enemy v) /\
  (need_ammo <= 0 -> 0 < need_power -> need_power <= v_power v ->
     v_ammo v' = v_ammo v /\ v_power v' = v_power v - need_power) /\
  (need_ammo <= 0 -> need_power <= 0 ->
     v_ammo v' = v_ammo v /\ v_power v' = v_power v).
Proof.
  cbv zeta. unfold check_resources.
  destruct (0 <? get0 (ammo_use md)) eqn:Ha;
    [apply Z.ltb_lt in Ha | apply Z.ltb_ge in Ha].
  - destruct (v_ammo v <? get0 (ammo_use md)) eqn:Hn;
      [apply Z.ltb_lt in Hn | apply Z.ltb_ge in Hn].
    + repeat split; intros; try lia; reflexivity.
    + match goal with |- context [apply_shot ?n ?m ?r ?d ?w] =>
        destruct (apply_shot_counters n m r d w) as [Hp Hq] end.
      rewrite Hp, Hq. simpl. repeat split; intros; lia.
  - destruct (0 <? get0 (power_use md)) eqn:Hb;
      [apply Z.ltb_lt in Hb | apply Z.ltb_ge in Hb].
    + destruct (v_power v <? get0 (power_use md)) eqn:Hn;
        [apply Z.ltb_lt in Hn | apply Z.ltb_ge in Hn].
      * repeat split; intros; try lia; reflexivity.
      * match goal with |- context [apply_shot ?n ?m ?r ?d ?w] =>
          destruct (apply_shot_counters n m r d w) as [Hp Hq] end.
        rewrite Hp, Hq. simpl. repeat split; intros; lia.
    + destruct (apply_shot_counters mod_name md attack_roll dmg v) as [Hp Hq].
      rewrite Hp, Hq. repeat split; intros; lia.
Qed.

Lemma check_resources_spends (mod_name : string) (md : Module_)
    (attack_roll dmg : Z) (v : Volley) :
  let v' := check_resources mod_name md attack_roll dmg v in
  spends (v_power v) (v_ammo v) (v_power v') (v_ammo v').
Proof.
  cbv zeta.
  pose proof (check_resources_cases mod_name md attack_roll dmg v) as H.
  cbv zeta in H. destruct H as (H1 & H2 & H3 & H4 & H5).
  unfold spends.
  destruct (Z_lt_le_dec 0 (get0 (ammo_use md))) as [Ha | Ha].
  - destruct (Z_lt_le_dec (v_ammo v) (get0 (ammo_use md))) as [Hn | Hn].
    + destruct (H1 Ha Hn) as (-> & -> & _). lia.
    + destruct (H2 Ha Hn) as (-> & ->). lia.
  - destruct (Z_lt_le_dec 0 (get0 (power_use md))) as [Hb | Hb].
    + destruct (Z_lt_le_dec (v_power v) (get0 (power_use md))) as [Hn | Hn].
      * destruct (H3 Ha Hb Hn) as (-> & -> & _). lia.
      * destruct (H4 Ha Hb Hn) as (-> & ->). lia.
    + destruct (H5 Ha Hb) as (-> & ->). lia.
Qed.

Lemma resolve_shot_spends (mod_name : string) (md : Module_)
    (attack_roll dmg : Z) (v : Volley) :
  let v' := resolve_shot mod_name md attack_roll dmg v in
  spends (v_power v) (v_ammo v) (v_power v') (v_ammo v').
Proof.
  cbv zeta. unfold resolve_shot.
  destruct (attack_roll =? 20).
  - match goal with |- context [check_resources ?n ?m ?r ?d ?w] =>
      exact (check_resources_spends n m r d w) end.
  - destruct (attack_roll <=? 2).
    + apply spends_refl.
    + match goal with |- context [check_resources ?n ?m ?r ?d ?w] =>
        exact (check_resources_spends n m r d w) end.
Qed.

Lemma fire_module_spends (mod_name : string) (v : Volley) (g : rng) :
  let v' := fst (fire_module mod_name v g) in
  spends (v_power v) (v_ammo v) (v_power v') (v_ammo v').
Proof.
  cbv zeta. unfold fire_module.
  destruct (get_module mod_name) as [md |]; [| apply spends_refl].
  destruct (String.eqb (m_type md) "weapon"); [| apply spends_refl].
  unfold bind, ret.
  destruct (roll_dice 20 g) as [roll g1].
  destruct (default (5, 10) (damage md)) as [lo hi].
  destruct (randint lo hi g1) as [dmg g2]. cbn [fst].
  apply resolve_shot_spends.
Qed.

Lemma fire_all_spends (modules : list string) :
  forall (v : Volley) (g : rng),
    let v' := fst (fire_all modules v g) in
    spends (v_power v) (v_ammo v) (v_power v') (v_ammo v').
Proof.
  induction modules as [| mod_name rest IH]; intros v g; cbv zeta.
  - apply spends_refl.
  - cbn [fire_all]. unfold bind.
    pose proof (fire_module_spends mod_name v g) as Hstep. cbv zeta in Hstep.
    destruct (fire_module mod_name v g) as [v1 g1]. cbn [fst] in Hstep.
    eapply spends_trans; [exact Hstep | apply IH].
Qed.

Lemma perform_attack_spends (enemy : Enemy) (modules : list string)
    (power ammo_ : Z) (g : rng) :
  let out := fst (perform_attack enemy modules power ammo_ g) in
  spends power ammo_ (snd (fst out)) (snd out).
Proof.
  cbv zeta. unfold perform_attack, bind, ret.
  pose proof (fire_all_spends modules
                (mk_volley enemy power ammo_ [LCombatLog] [] 0) g) as H.
  cbv zeta in H.
  destruct (fire_all modules _ g) as [v g1]. exact H.
Qed.

(** Every registry entry satisfies what every row of the table does. *)
Lemma registry_forall (P : string -> Module_ -> Prop) :
  Forall (fun row => P (fst row) (snd row)) MODULE_TABLE ->
  forall name md, get_module name = Some md -> P name md.
Proof.
  intros Hall name md Hget.
  unfold get_module, MODULES in Hget.
  apply elem_of_list_to_map_2 in Hget.
  rewrite Forall_forall in Hall.
  exact (Hall (name, md) Hget).
Qed.

(** C4: for every weapon of the registry, whatever its damage type, a
    d20 of exactly 20 turns the sampled raw damage [dmg] into
    [int(dmg * 1.8)] (truncated) and hands it to the resource check; a d20
    of 2 or less logs a misfire and leaves enemy, ammo and power as they
    were. *)
Theorem crit_scales_damage_miss_is_free
    (mod_name : string) (md : Module_) (v : Volley) (g : rng) :
  get_module mod_name = Some md -> m_type md = "weapon" ->
  let roll := fst (roll_dice 20 g) in
  let range := default (5, 10) (damage md) in
  let dmg := fst (randint (fst range) (snd range) (snd (roll_dice 20 g))) in
  let v' := fst (fire_module mod_name v g) in
  (roll = 20 ->
     v' = check_resources mod_name md 20 (Z.quot (dmg * 18) 10)
            (v_log (LCrit mod_name 20) (counted mod_name 20 v))) /\
  (roll <= 2 ->
     v_enemy v' = v_enemy v /\ v_ammo v' = v_ammo v /\
     v_power v' = v_power v /\
     v_logs v' = v_logs v ++ [LMisfire mod_name roll]).
Proof.
  intros Hget Hty. cbv zeta. unfold fire_module.
  rewrite Hget, Hty. cbn [String.eqb Ascii.eqb Bool.eqb]. unfold bind, ret.
  destruct (roll_dice 20 g) as [roll g1].
  destruct (default (5, 10) (damage md)) as [lo hi]. cbn [fst snd].
  destruct (randint lo hi g1) as [dmg g2]. cbn [fst snd].
  unfold resolve_shot. split.
  - intros ->. rewrite Z.eqb_refl. reflexivity.
  - intros Hmiss.
    destruct (roll =? 20) eqn:H20; [apply Z.eqb_eq in H20; lia |].
    destruct (roll <=? 2) eqn:H2; [| apply Z.leb_gt in H2; lia].
    repeat split; reflexivity.
Qed.

Lemma crit_scales_damage_miss_is_free_witness :
  let v := mk_volley PIRATE_TEMPLATE 100 50 [LCombatLog] [] 0 in
  get_module "Plasma Cannon" = Some (weapon "blast" (16, 28) 3 12) /\
  m_type (weapon "blast" (16, 28) 3 12) = "weapon" /\
  fst (roll_dice 20 (tape [19; 12])) = 20 /\
  v_ammo (fst (fire_module "Plasma Cannon" v (tape [19; 12]))) = 47 /\
  e_shields (v_enemy (fst (fire_module "Plasma Cannon" v (tape [19; 12])))) = 0.
Proof.
  intros v.
  assert (Hget : get_module "Plasma Cannon"
                 = Some (weapon "blast" (16, 28) 3 12))
    by (vm_compute; reflexivity).
  assert (Hty : m_type (weapon "blast" (16, 28) 3 12) = "weapon")
    by reflexivity.
  assert (Hroll : fst (roll_dice 20 (tape [19; 12])) = 20)
    by (vm_compute; reflexivity).
  destruct (crit_scales_damage_miss_is_free
              "Plasma Cannon" _ v (tape [19; 12]) Hget Hty) as [Hcrit _].
  specialize (Hcrit Hroll).
  split; [exact Hget |]. split; [exact Hty |]. split; [exact Hroll |].
  rewrite Hcrit. split; vm_compute; reflexivity.
Defined.




(** C6, as stated, fails on the registry: the Mass Driver is a weapon with
    ammo cost 2 and power cost 5 (and the Plasma Cannon one with 3 and
    12). *)
Lemma mass_driver_has_both_costs :
  get_module "Mass Driver" = Some (weapon "kinetic" (8, 16) 2 5) /\
  get_module "Plasma Cannon" = Some (weapon "blast" (16, 28) 3 12) /\
  m_type (weapon "kinetic" (8, 16) 2 5) = "weapon" /\
  ~ at_most_one_cost (weapon "kinetic" (8, 16) 2 5) /\
  ~ at_most_one_cost (weapon "blast" (16, 28) 3 12).
Proof.
  split; [vm_compute; reflexivity |].
  split; [vm_compute; reflexivity |].
  split; [reflexivity |].
  split; intros [H | H]; discriminate H.
Qed.

Lemma registry_weapon_costs (name : string) (md : Module_) :
  get_module name = Some md -> m_type md = "weapon" ->
  0 <= get0 (ammo_use md) /\ 0 < get0 (power_use md).
Proof.
  revert name md.
  apply (registry_forall
           (fun _ md => m_type md = "weapon" ->
                        0 <= get0 (ammo_use md) /\ 0 < get0 (power_use md))).
  unfold MODULE_TABLE.
  repeat (apply Forall_cons; split;
          [cbn; intros Hty; first [discriminate Hty | lia] |]).
  apply Forall_nil. exact I.
Qed.

(** C6 (amended): every weapon of the registry has a positive power cost
    and an ammo cost that is zero or positive, so both may be set (as for
    the Mass Driver and the Plasma Cannon).  The engine looks at the ammo
    cost first: when it is positive the shot is rejected on too little ammo
    and otherwise charged the ammo cost alone, the power grid being left as
    it is; when the ammo cost is zero the shot is rejected on too little
    power and otherwise charged the power cost alone. *)
Theorem engine_charges_ammo_cost_first
    (mod_name : string) (md : Module_) (attack_roll dmg : Z) (v : Volley) :
  get_module mod_name = Some md -> m_type md = "weapon" ->
  let v' := check_resources mod_name md attack_roll dmg v in
  let need_ammo := get0 (ammo_use md) in
  let need_power := get0 (power_use md) in
  0 <= need_ammo /\ 0 < need_power /\
  (0 < need_ammo -> v_ammo v < need_ammo ->
     v_ammo v' = v_ammo v /\ v_power v' = v_power v /\
     v_enemy v' = v_enemy v) /\
  (0 < need_ammo -> need_ammo <= v_ammo v ->
     v_ammo v' = v_ammo v - need_ammo /\ v_power v' = v_power v) /\
  (need_ammo = 0 -> v_power v < need_power ->
     v_ammo v' = v_ammo v /\ v_power v' = v_power v /\
     v_enemy v' = v_enemy v) /\
  (need_ammo = 0 -> need_power <= v_power v ->
     v_ammo v' = v_ammo v /\ v_power v' = v_power v - need_power).
Proof.
  intros Hget Hty. cbv zeta.
  destruct (registry_weapon_costs mod_name md Hget Hty) as [Ha Hp].
  pose proof (check_resources_cases mod_name md attack_roll dmg v) as H.
  cbv zeta in H. destruct H as (H1 & H2 & H3 & H4 & _).
  split; [exact Ha |]. split; [exact Hp |].
  split; [exact H1 |]. split; [exact H2 |].
  split; intros Hz Hn; [apply H3 | apply H4]; lia.
Qed.

Lemma engine_charges_ammo_cost_first_witness :
  let md := weapon "kinetic" (8, 16) 2 5 in
  let v := mk_volley PIRATE_TEMPLATE 100 50 [LCombatLog] [] 0 in
  get_module "Mass Driver" = Some md /\ m_type md = "weapon" /\
  v_ammo (check_resources "Mass Driver" md 10 8 v) = 48 /\
  v_power (check_resources "Mass Driver" md 10 8 v) = 100.
Proof.
  intros md v.
  assert (Hget : get_module "Mass Driver" = Some md)
    by (vm_compute; reflexivity).
  assert (Hty : m_type md = "weapon") by reflexivity.
  destruct (engine_charges_ammo_cost_first "Mass Driver" md 10 8 v Hget Hty)
    as (_ & _ & _ & Hpay & _).
  assert (H0 : 0 < get0 (ammo_use md)) by (simpl; lia).
  assert (H1 : get0 (ammo_use md) <= v_ammo v) by (simpl; lia).
  destruct (Hpay H0 H1) as [Ha Hp].
  split; [exact Hget |]. split; [exact Hty |].
  split; [exact Ha | exact Hp].
Defined.

(** ** The ship store *)

Lemma set_shields_same (p : Player) : set_shields (shields p) p = p.
Proof. destruct p; reflexivity. Qed.

Lemma set_shields_twice (a b : Z) (p : Player) :
  set_shields a (set_shields b p) = set_shields a p.
Proof. reflexivity. Qed.

Lemma set_power_grid_same (s : ShipData) : set_power_grid (power_grid s) s = s.
Proof. destruct s; reflexivity. Qed.

Lemma installed_cons (name m : string) (mods : list string) :
  installed name (m :: mods)
  = (if String.eqb m name then 1 else 0) + installed name mods.
Proof.
  unfold installed. cbn [count_occ].
  destruct (String.string_dec m name) as [-> | Hne].
  - rewrite String.eqb_refl. lia.
  - apply String.eqb_neq in Hne. rewrite Hne. lia.
Qed.

Lemma apply_modules_cons (m : string) (rest : list string)
    (p : Player) (ship : ShipData) :
  apply_modules (m :: rest) p ship
  = apply_modules rest (fst (module_bonus (MODULES !! m) p ship))
                       (snd (module_bonus (MODULES !! m) p ship)).
Proof.
  cbn [apply_modules]. unfold module_bonus.
  destruct (MODULES !! m) as [md |]; [| reflexivity].
  destruct (String.eqb (m_type md) "utility"); [| reflexivity].
  destruct (apply_effect (effect md) p ship). reflexivity.
Qed.

Lemma bonus_of_neutral (p : Player) (ship : ShipData) :
  (p, ship) = (set_shields (shields p + 0) p,
               set_power_grid (power_grid ship + 0) ship).
Proof.
  rewrite !Z.add_0_r, set_shields_same, set_power_grid_same. reflexivity.
Qed.

Lemma module_bonus_registry (name : string) (p : Player) (ship : ShipData) :
  module_bonus (MODULES !! name) p ship = bonus_of name p ship.
Proof.
  destruct (MODULES !! name) as [md |] eqn:Hget.
  - revert p ship. revert name md Hget.
    apply (registry_forall
             (fun name md => forall p ship,
                  module_bonus (Some md) p ship = bonus_of name p ship)).
    unfold MODULE_TABLE.
    repeat (apply Forall_cons; split;
            [intros [] []; unfold bonus_of; simpl;
             rewrite ?Z.add_0_r; reflexivity |]).
    apply Forall_nil. exact I.
  - cbn [module_bonus]. unfold bonus_of.
    assert (Hs : String.eqb name "Shield Booster" = false).
    { apply String.eqb_neq. intros ->. vm_compute in Hget. discriminate. }
    assert (Hr : String.eqb name "Reactor Upgrade" = false).
    { apply String.eqb_neq. intros ->. vm_compute in Hget. discriminate. }
    rewrite Hs, Hr. apply bonus_of_neutral.
Qed.

Lemma apply_modules_closed_form (mods : list string) :
  forall (p : Player) (ship : ShipData),
    apply_modules mods p ship
    = (set_shields (shields p + 15 * installed "Shield Booster" mods) p,
       set_power_grid
         (power_grid ship + 10 * installed "Reactor Upgrade" mods) ship).
Proof.
  induction mods as [| m rest IH]; intros p ship.
  - cbn [apply_modules]. unfold installed. cbn [count_occ Z.of_nat].
    rewrite !Z.mul_0_r. apply bonus_of_neutral.
  - rewrite apply_modules_cons, module_bonus_registry, IH.
    rewrite !installed_cons. unfold bonus_of. cbn [fst snd].
    destruct p, ship. unfold set_shields, set_power_grid. cbn.
    destruct (String.eqb m "Shield Booster"),
             (String.eqb m "Reactor Upgrade"); f_equal; f_equal; lia.
Qed.

(** Two encounters in a row, each won before the raider fires: the save
    file shows shields 115 after the first and 130 after the second. *)
Example shield_booster_stacks_across_encounters :
  let first := fst (engage_pirates 1 (fun _ => "1") boosted_player
                                   PIRATE_TEMPLATE None three_crits) in
  let second :=
    first ≫= (fun o =>
      fst (engage_pirates 1 (fun _ => "1") (o_player o) PIRATE_TEMPLATE
                          (o_disk o) three_crits)) in
  (shields <$> (first ≫= o_disk)) = Some 115 /\
  (shields <$> (second ≫= o_disk)) = Some 130.
Proof. vm_compute. split; reflexivity. Qed.

(** C10: [get_player_ship] writes to its argument.  It leaves the player
    record with its shields raised by 15 for every installed Shield
    Booster (the only module of the registry with a shield bonus) and
    everything else as it was; the power bonus of the Reactor Upgrade goes
    to the returned copy only.  A second call raises the shields again, and
    a combat session begins with the record the call left behind. *)
Theorem get_player_ship_raises_stored_shields
    (p : Player) (enemy_template : Enemy) :
  let boosters := installed "Shield Booster" (ship_modules p) in
  let reactors := installed "Reactor Upgrade" (ship_modules p) in
  fst (get_player_ship p) = set_shields (shields p + 15 * boosters) p /\
  snd (get_player_ship p)
    = set_power_grid (power_grid (ship_data p) + 10 * reactors) (ship_data p) /\
  ship_data (fst (get_player_ship p)) = ship_data p /\
  shields (fst (get_player_ship (fst (get_player_ship p))))
    = shields p + 2 * (15 * boosters) /\
  s_player (fst (start_session p enemy_template)) = fst (get_player_ship p) /\
  (In "Shield Booster" (ship_modules p) ->
     shields p + 15 <= shields (fst (get_player_ship p))).
Proof.
  cbv zeta. unfold get_player_ship, start_session, get_player_ship.
  rewrite !apply_modules_closed_form. cbn [fst snd].
  split; [reflexivity |]. split; [reflexivity |].
  split; [destruct p; reflexivity |].
  split; [destruct p; cbn; lia |].
  split; [reflexivity |].
  intros Hin. destruct p as [n c a h ar sh sd mods]. cbn in *.
  unfold installed.
  apply (count_occ_In String.string_dec) in Hin. lia.
Qed.

Lemma get_player_ship_raises_stored_shields_witness :
  In "Shield Booster" (ship_modules boosted_player) /\
  shields (fst (get_player_ship boosted_player)) = 115 /\
  shields (fst (get_player_ship (fst (get_player_ship boosted_player)))) = 130.
Proof.
  assert (Hin : In "Shield Booster" (ship_modules boosted_player))
    by (simpl; tauto).
  destruct (get_player_ship_raises_stored_shields
              boosted_player PIRATE_TEMPLATE) as (H1 & _ & _ & H2 & _).
  split; [exact Hin |]. split.
  - rewrite H1. reflexivity.
  - rewrite H2. reflexivity.
Defined.

(** ** The combat session *)

Lemma untouched_refl (p : Player) : untouched p p.
Proof. repeat split. Qed.

Lemma untouched_trans (p q r : Player) :
  untouched p q -> untouched q r -> untouched p r.
Proof. unfold untouched. intros (? & ? & ?) (? & ? & ?). repeat split; congruence. Qed.

Lemma damage_player_untouched (name : string) (d : Z) (p : Player) :
  untouched p (fst (damage_player name d p)).
Proof.
  unfold damage_player.
  destruct (0 <? shields p);
    match goal with |- context [0 <? ?r] => destruct (0 <? r) end;
    repeat split.
Qed.

Lemma enemy_attack_untouched (p : Player) (e : Enemy) (g : rng) :
  untouched p (fst (fst (enemy_attack p e g))).
Proof.
  unfold enemy_attack, bind, ret.
  destruct (roll_dice 20 g) as [roll g1].
  destruct (roll <=? 3); [apply untouched_refl |].
  destruct (randint _ _ g1) as [dmg g2].
  destruct (roll =? 20).
  - pose proof (damage_player_untouched (e_name e) (int_mul dmg (18 # 10)) p).
    destruct (damage_player _ _ p). assumption.
  - pose proof (damage_player_untouched (e_name e) dmg p).
    destruct (damage_player _ _ p). assumption.
Qed.

Lemma exchange_untouched (action : string) (s : Session) (g : rng) :
  untouched (s_player s) (x_player (fst (exchange action s g))).
Proof.
  unfold exchange, bind, ret.
  destruct (handle_player_action _ _ _ _ action g)
    as [[[[enemy1 p_log] power1] ammo1] g1].
  destruct (0 <? e_hull enemy1); [| apply untouched_refl].
  pose proof (enemy_attack_untouched (s_player s) enemy1 g1) as H.
  destruct (enemy_attack (s_player s) enemy1 g1) as [a g2]. exact H.
Qed.

(** A turn always runs to its end: whatever the exchange produced, the
    session the loop continues from has the regenerated power and the
    possibly scavenged ammo. *)
Lemma turn_body_regen (ship_stats : ShipData) (action : string)
    (s : Session) (g : rng) :
  let x := fst (exchange action s g) in
  let s' := fst (turn_body ship_stats action s g) in
  s_player s' = x_player x /\ s_enemy s' = x_enemy x /\
  s_power s' = regen_power ship_stats (x_power x) /\
  s_ammo s' = (if fst (chance 5 (snd (exchange action s g)))
               then x_ammo x + 1 else x_ammo x) /\
  s_turn s' = S (s_turn s).
Proof.
  cbv zeta. unfold turn_body, bind.
  destruct (exchange action s g) as [x g1]. cbn [fst snd].
  unfold end_of_turn, bind, ret.
  destruct (chance 5 g1) as [[|] g2]; repeat split.
Qed.

Lemma combat_loop_untouched (ship_stats : ShipData) (inputs : nat -> string)
    (fuel : nat) :
  forall (s s' : Session) (g : rng),
    fst (combat_loop fuel ship_stats inputs s g) = Some s' ->
    untouched (s_player s) (s_player s') /\ active s' = false.
Proof.
  induction fuel as [| fuel IH]; intros s s' g Hrun; cbn [combat_loop] in Hrun.
  - destruct (active s) eqn:Hact; [discriminate Hrun |].
    injection Hrun as <-. split; [apply untouched_refl | exact Hact].
  - destruct (active s) eqn:Hact.
    + unfold bind in Hrun.
      pose proof (turn_body_regen ship_stats (inputs (s_turn s)) s g) as Ht.
      cbv zeta in Ht. destruct Ht as (Hp & _).
      pose proof (exchange_untouched (inputs (s_turn s)) s g) as Hx.
      rewrite <- Hp in Hx.
      destruct (turn_body ship_stats (inputs (s_turn s)) s g) as [s1 g1].
      cbn [fst] in Hx.
      destruct (IH s1 s' g1 Hrun) as [Hu Hdone].
      split; [eapply untouched_trans; eassumption | exact Hdone].
    + injection Hrun as <-. split; [apply untouched_refl | exact Hact].
Qed.

(** C2, as stated, fails for ammo and power.  The gunship wins in the first
    turn; the session ends with 42 ammo and 88 power, the record written to
    the save file has the ammo 50 and the power grid 100 it had before
    combat (and the credits 1000 + 150). *)
Lemma ammo_and_power_are_not_saved :
  (fun o => (o_result o,
             s_ammo (o_session o), ammo <$> o_disk o,
             s_power (o_session o), power_grid <$> (ship_data <$> o_disk o),
             credits <$> o_disk o))
    <$> fst (engage_pirates 1 (fun _ => "1") gunship PIRATE_TEMPLATE None
                            killing_volley)
  = Some (true, 42, Some 50, 88, Some 100, Some 1150).
Proof. vm_compute. reflexivity. Qed.

(** C2 (amended): when a session ends, in victory or in defeat, the record
    written to the save file is the player record as combat left it.  It
    holds the final hull and shields and the credits (raised by a salvage
    of 150..400 on victory, unchanged on defeat); its ammo and the power
    grid of its ship data are the values from before combat, the ammo and
    power spent or regained during combat being local to the session. *)
Theorem session_end_saves_hull_shields_credits
    (fuel : nat) (inputs : nat -> string) (player : Player)
    (enemy_template : Enemy) (d : Disk) (g : rng) (o : Outcome) :
  fst (engage_pirates fuel inputs player enemy_template d g) = Some o ->
  active (o_session o) = false /\
  o_disk o = Some (o_player o) /\
  hull (o_player o) = hull (s_player (o_session o)) /\
  shields (o_player o) = shields (s_player (o_session o)) /\
  (if o_result o
   then exists reward, 150 <= reward <= 400 /\
                       credits (o_player o) = credits player + reward
   else credits (o_player o) = credits player) /\
  ammo (o_player o) = ammo player /\
  ship_data (o_player o) = ship_data player.
Proof.
  unfold engage_pirates, start_session, get_player_ship.
  rewrite apply_modules_closed_form. unfold bind, ret.
  match goal with |- context [combat_loop fuel ?sh inputs ?s0 g] =>
    pose proof (combat_loop_untouched sh inputs fuel s0) as Hloop;
    destruct (combat_loop fuel sh inputs s0 g) as [[s |] g1] eqn:Hrun
  end; [| discriminate].
  specialize (Hloop s g). rewrite Hrun in Hloop.
  destruct (Hloop eq_refl) as [(Ha & Hc & Hsd) Hdone].
  cbn [s_player] in Ha, Hc, Hsd.
  assert (Hp : ammo (s_player s) = ammo player /\
               credits (s_player s) = credits player /\
               ship_data (s_player s) = ship_data player).
  { rewrite Ha, Hc, Hsd. destruct player; repeat split. }
  clear Ha Hc Hsd Hloop. destruct Hp as (Ha & Hc & Hsd).
  unfold resolution, ret, bind.
  destruct (hull (s_player s) <=? 0).
  - cbn [fst]. intros [= <-]. cbn.
    repeat split; try assumption.
  - pose proof (randint_range 150 400 g1) as Hr.
    destruct (randint 150 400 g1) as [reward g2]. cbn [fst] in *.
    intros [= <-]. cbn.
    split; [exact Hdone |]. split; [reflexivity |].
    split; [reflexivity |]. split; [reflexivity |].
    split; [exists reward; split; [lia | congruence] |].
    split; assumption.
Qed.

Lemma session_end_saves_hull_shields_credits_witness :
  exists o,
    fst (engage_pirates 1 (fun _ => "1") gunship PIRATE_TEMPLATE None
                        killing_volley) = Some o /\
    o_disk o = Some (o_player o) /\
    ammo (o_player o) = ammo gunship.
Proof.
  destruct (fst (engage_pirates 1 (fun _ => "1") gunship PIRATE_TEMPLATE None
                                killing_volley)) as [o |] eqn:Hrun;
    [| vm_compute in Hrun; discriminate Hrun].
  exists o.
  destruct (session_end_saves_hull_shields_credits
              1 (fun _ => "1") gunship PIRATE_TEMPLATE None killing_volley o
              Hrun) as (_ & Hd & _ & _ & _ & Ha & _).
  split; [reflexivity |]. split; [exact Hd | exact Ha].
Defined.

(** C7, as stated, fails in the turn that ends the fight.  The gunship's
    volley leaves the raider's hull at -30; the exchange ends with power 85
    and ammo 41, and the turn still regenerates power to 88, scavenges one
    ammo (42) and logs it, although the session is no longer active. *)
Lemma regen_runs_in_the_killing_turn :
  let s0 := fst (start_session gunship PIRATE_TEMPLATE) in
  let ship_stats := snd (start_session gunship PIRATE_TEMPLATE) in
  let x := fst (exchange "1" s0 killing_volley) in
  let s1 := fst (turn_body ship_stats "1" s0 killing_volley) in
  active s0 = true /\
  e_hull (x_enemy x) = -30 /\ active s1 = false /\
  x_power x = 85 /\ s_power s1 = 88 /\
  x_ammo x = 41 /\ s_ammo s1 = 42 /\
  (last <$> last (s_printed s1)) = Some (Some LScavenged).
Proof. vm_compute. repeat split; reflexivity. Qed.

(** C7 (amended): the end-of-turn regeneration runs at the end of every
    turn the loop executes, whether or not a hull reached 0 in it: the
    power the turn leaves is [min(power + max(3, speed // 2), cap)] of the
    power after the exchange, with the ship's power grid as cap, and the
    ammo is that after the exchange plus 1 when the 5% draw succeeds. *)
Theorem regen_runs_at_the_end_of_every_turn
    (ship_stats : ShipData) (action : string) (s : Session) (g : rng) :
  let x := fst (exchange action s g) in
  let s' := fst (turn_body ship_stats action s g) in
  s_power s'
    = Z.min (x_power x + Z.max 3 (default 5 (speed ship_stats) / 2))
            (power_grid ship_stats) /\
  s_ammo s' = (if fst (chance 5 (snd (exchange action s g)))
               then x_ammo x + 1 else x_ammo x) /\
  s_enemy s' = x_enemy x /\ s_player s' = x_player x /\
  (1 <= fst (randint 1 100 (snd (exchange action s g))) <= 5 ->
     s_ammo s' = x_ammo x + 1) /\
  (5 < fst (randint 1 100 (snd (exchange action s g))) ->
     s_ammo s' = x_ammo x).
Proof.
  cbv zeta.
  pose proof (turn_body_regen ship_stats action s g) as H. cbv zeta in H.
  destruct H as (Hp & He & Hpow & Hammo & _).
  split; [exact Hpow |]. split; [exact Hammo |].
  split; [exact He |]. split; [exact Hp |].
  rewrite Hammo. unfold chance, bind, ret.
  destruct (randint 1 100 (snd (exchange action s g))) as [r g1].
  cbn [fst]. change (Z.max 0 (Z.min 5 100)) with 5. split; intros Hr.
  - destruct (r <=? 5) eqn:Hb; [reflexivity | apply Z.leb_gt in Hb; lia].
  - destruct (r <=? 5) eqn:Hb; [apply Z.leb_le in Hb; lia | reflexivity].
Qed.

Lemma regen_runs_at_the_end_of_every_turn_witness :
  let s0 := fst (start_session gunship PIRATE_TEMPLATE) in
  let ship_stats := snd (start_session gunship PIRATE_TEMPLATE) in
  1 <= fst (randint 1 100 (snd (exchange "1" s0 killing_volley))) <= 5 /\
  s_ammo (fst (turn_body ship_stats "1" s0 killing_volley))
    = x_ammo (fst (exchange "1" s0 killing_volley)) + 1.
Proof.
  intros s0 ship_stats.
  assert (Hr : 1 <= fst (randint 1 100 (snd (exchange "1" s0 killing_volley)))
               <= 5)
    by (vm_compute; split; discriminate).
  destruct (regen_runs_at_the_end_of_every_turn
              ship_stats "1" s0 killing_volley) as (_ & _ & _ & _ & Hup & _).
  split; [exact Hr | exact (Hup Hr)].
Defined.

(** Whatever the session, a retreat that succeeds against a living enemy is
    followed in the same turn by the enemy's attack: the flag line is the
    last thing the action logs, and nothing reads it. *)
Lemma successful_retreat_exchange (s : Session) (g : rng) :
  fst (chance 50 g) = true -> 0 < e_hull (s_enemy s) ->
  let a := fst (enemy_attack (s_player s) (s_enemy s) (snd (chance 50 g))) in
  fst (exchange "4" s g)
  = mk_exchange (fst a) (s_enemy s) (s_power s) (s_ammo s)
      ([LRetreatAttempt; LRetreatSuccess; LRetreatedFlag] ++ snd a).
Proof.
  intros Hok Halive. cbv zeta.
  unfold exchange, handle_player_action.
  cbn [String.eqb Ascii.eqb Bool.eqb]. unfold bind at 1 2.
  destruct (chance 50 g) as [escaped g1]. cbn [fst snd] in *. subst escaped.
  unfold ret at 1. apply Z.ltb_lt in Halive. rewrite Halive.
  unfold bind, ret.
  destruct (enemy_attack (s_player s) (s_enemy s) g1) as [a g2].
  reflexivity.
Qed.

(** C1: the code does not end the session on a successful retreat.  On a
    fresh player against the default raider the retreat draw succeeds (1
    of 100, at most 50) and the flag line is logged; the raider then rolls
    10 and deals 8 to the shields in the same turn, the turn ends as any
    other, the session is still active at turn 2, and the loop goes on. *)
Theorem successful_retreat_does_not_end_the_session :
  let s0 := fst (start_session new_player PIRATE_TEMPLATE) in
  let ship_stats := snd (start_session new_player PIRATE_TEMPLATE) in
  let g := tape [0; 9; 0; 99] in
  let x := fst (exchange "4" s0 g) in
  let s1 := fst (turn_body ship_stats "4" s0 g) in
  fst (chance 50 g) = true /\
  x_log x = [LRetreatAttempt; LRetreatSuccess; LRetreatedFlag;
             LShieldsHit "Sholen Raider" 8] /\
  shields (s_player s0) = 100 /\ shields (x_player x) = 92 /\
  active s1 = true /\ s_turn s1 = 2%nat /\
  fst (engage_pirates 1 (fun _ => "4") new_player PIRATE_TEMPLATE None g)
    = None.
Proof. vm_compute. repeat split; reflexivity. Qed.

(* ===================================================================== *)
(** * Further properties of the engine                                    *)
(* ===================================================================== *)

(** ** The enemy's attack *)

Lemma int_mul_crit_bounds (dmg hi : Z) :
  0 <= dmg <= hi ->
  0 <= int_mul dmg (18 # 10) <= Z.quot (hi * 18) 10.
Proof.
  intros Hd. rewrite int_mul_crit. split.
  - apply Z.quot_pos; lia.
  - apply Z.quot_le_mono; lia.
Qed.

(** What a hit of [d >= 0] costs the player: never more than [d], shields
    first. *)
Lemma damage_player_loss (name : string) (d : Z) (p : Player) :
  0 <= d -> 0 <= shields p -> 0 <= hull p ->
  let p' := fst (damage_player name d p) in
  0 <= shields p' <= shields p /\ 0 <= hull p' <= hull p /\
  (hull p' < hull p -> shields p' = 0) /\
  (shields p - shields p') + (hull p - hull p') <= d.
Proof.
  intros Hd Hs Hh. cbv zeta.
  rewrite (damage_player_shields name d p Hs Hd).
  rewrite (damage_player_hull name d p Hs Hd).
  unfold spec_shields, spec_hull.
  destruct (shields p <? d) eqn:Hlt;
    [apply Z.ltb_lt in Hlt | apply Z.ltb_ge in Hlt]; lia.
Qed.

(** X1: The enemy's attack never repairs the player and never costs more than
    a critical hit with top damage: for a damage range
    [0 <= lo <= hi <= 1000000] (where [int(d * 1.8)] is the truncated exact
    product) and a player with shields and hull not negative, shields and
    hull only go down, neither below zero, the hull only once the shields
    are at zero; together they lose at most [int(hi * 1.8)], at most [hi]
    unless the roll is 20, and nothing at all on a roll of 3 or less. *)
Theorem enemy_attack_damage_bounds (p : Player) (e : Enemy) (g : rng) :
  0 <= fst (damage_range e) <= snd (damage_range e) ->
  snd (damage_range e) <= 1000000 ->
  0 <= shields p -> 0 <= hull p ->
  let roll := fst (roll_dice 20 g) in
  let p' := fst (fst (enemy_attack p e g)) in
  let loss := (shields p - shields p') + (hull p - hull p') in
  0 <= shields p' <= shields p /\ 0 <= hull p' <= hull p /\
  (hull p' < hull p -> shields p' = 0) /\
  loss <= Z.quot (snd (damage_range e) * 18) 10 /\
  (roll < 20 -> loss <= snd (damage_range e)) /\
  (roll <= 3 -> p' = p).
Proof.
  intros Hrange _ Hs Hh. cbv zeta. unfold enemy_attack, bind, ret.
  destruct (roll_dice 20 g) as [roll g1]. cbn [fst].
  assert (Hcap : snd (damage_range e) <= Z.quot (snd (damage_range e) * 18) 10).
  { apply Z.quot_le_lower_bound; lia. }
  destruct (roll <=? 3) eqn:Hmiss;
    [apply Z.leb_le in Hmiss | apply Z.leb_gt in Hmiss].
  - cbn [fst]. repeat split; intros; lia.
  - pose proof (randint_range _ _ g1 (proj2 Hrange)) as Hd.
    destruct (randint _ _ g1) as [dmg g2]. cbn [fst] in Hd.
    destruct (roll =? 20) eqn:Hcrit;
      [apply Z.eqb_eq in Hcrit | apply Z.eqb_neq in Hcrit].
    + pose proof (int_mul_crit_bounds dmg (snd (damage_range e))
                    ltac:(lia)) as Hc.
      pose proof (damage_player_loss (e_name e) (int_mul dmg (18 # 10)) p
                    ltac:(lia) Hs Hh) as Hl.
      cbv zeta in Hl.
      destruct (damage_player _ _ p) as [p' l]. cbn [fst] in *.
      repeat split; intros; lia.
    + pose proof (damage_player_loss (e_name e) dmg p ltac:(lia) Hs Hh) as Hl.
      cbv zeta in Hl.
      destruct (damage_player _ _ p) as [p' l]. cbn [fst] in *.
      repeat split; intros; lia.
Qed.

Lemma enemy_attack_damage_bounds_witness :
  let p := fst (fst (enemy_attack new_player PIRATE_TEMPLATE (tape [19; 10]))) in
  0 <= fst (damage_range PIRATE_TEMPLATE) <= snd (damage_range PIRATE_TEMPLATE) /\
  snd (damage_range PIRATE_TEMPLATE) <= 1000000 /\
  0 <= shields new_player /\ 0 <= hull new_player /\
  shields p = 68 /\
  (shields new_player - shields p) + (hull new_player - hull p) <= 32.
Proof.
  intros p.
  assert (H0 : 0 <= fst (damage_range PIRATE_TEMPLATE)
                 <= snd (damage_range PIRATE_TEMPLATE)) by (simpl; lia).
  assert (Hb : snd (damage_range PIRATE_TEMPLATE) <= 1000000)
    by (simpl; lia).
  assert (H1 : 0 <= shields new_player) by (simpl; lia).
  assert (H2 : 0 <= hull new_player) by (simpl; lia).
  destruct (enemy_attack_damage_bounds new_player PIRATE_TEMPLATE
              (tape [19; 10]) H0 Hb H1 H2) as (_ & _ & _ & Hloss & _).
  split; [exact H0 |]. split; [exact Hb |]. split; [exact H1 |].
  split; [exact H2 |].
  split; [reflexivity | exact Hloss].
Defined.

(** ** The volley: which modules fire *)

Lemma apply_shot_record (mod_name : string) (md : Module_)
    (attack_roll dmg : Z) (v : Volley) :
  v_rolls (apply_shot mod_name md attack_roll dmg v) = v_rolls v /\
  v_used (apply_shot mod_name md attack_roll dmg v) = v_used v.
Proof.
  unfold apply_shot. destruct (damage_enemy _ _ _ _ _). split; reflexivity.
Qed.

Lemma check_resources_record (mod_name : string) (md : Module_)
    (attack_roll dmg : Z) (v : Volley) :
  v_rolls (check_resources mod_name md attack_roll dmg v) = v_rolls v /\
  v_used (check_resources mod_name md attack_roll dmg v) = v_used v.
Proof.
  unfold check_resources.
  repeat match goal with
         | |- context [if ?b then _ else _] => destruct b
         end;
    try (split; reflexivity);
    match goal with |- context [apply_shot ?n ?m ?r ?d ?w] =>
      destruct (apply_shot_record n m r d w) as [-> ->] end;
    split; reflexivity.
Qed.

Lemma resolve_shot_record (mod_name : string) (md : Module_)
    (attack_roll dmg : Z) (v : Volley) :
  v_rolls (resolve_shot mod_name md attack_roll dmg v)
    = v_rolls v ++ [(mod_name, attack_roll)] /\
  v_used (resolve_shot mod_name md attack_roll dmg v) = S (v_used v).
Proof.
  unfold resolve_shot.
  destruct (attack_roll =? 20);
    [| destruct (attack_roll <=? 2); [split; reflexivity |]];
    match goal with |- context [check_resources ?n ?m ?r ?d ?w] =>
      destruct (check_resources_record n m r d w) as [-> ->] end;
    split; reflexivity.
Qed.

(** A module that is no weapon is passed over without a draw. *)
Lemma fire_module_skips (mod_name : string) (v : Volley) (g : rng) :
  is_weapon mod_name = false -> fire_module mod_name v g = (v, g).
Proof.
  unfold is_weapon, fire_module.
  destruct (get_module mod_name) as [md |]; [| reflexivity].
  intros ->. reflexivity.
Qed.

(** A weapon is counted, its roll of 1..20 recorded, and two values are
    drawn: the roll and the raw damage, hit or miss. *)
Lemma fire_module_fires (mod_name : string) (v : Volley) (g : rng) :
  is_weapon mod_name = true ->
  exists roll, 1 <= roll <= 20 /\
    v_rolls (fst (fire_module mod_name v g)) = v_rolls v ++ [(mod_name, roll)] /\
    v_used (fst (fire_module mod_name v g)) = S (v_used v) /\
    cursor (snd (fire_module mod_name v g)) = S (S (cursor g)) /\
    entropy (snd (fire_module mod_name v g)) = entropy g.
Proof.
  unfold is_weapon, fire_module.
  destruct (get_module mod_name) as [md |]; [| discriminate].
  intros ->. unfold bind, ret.
  pose proof (roll_dice_range g) as Hr.
  unfold roll_dice, randint in *. cbn [fst] in Hr.
  destruct (default (5, 10) (damage md)) as [lo hi].
  eexists. split; [exact Hr |].
  cbn [fst snd cursor entropy].
  match goal with |- context [resolve_shot ?n ?m ?r ?d ?w] =>
    destruct (resolve_shot_record n m r d w) as [Hrolls Hused];
    rewrite Hrolls, Hused end.
  repeat split; reflexivity.
Qed.

Lemma fire_all_record (modules : list string) :
  forall (v : Volley) (g : rng),
  exists rolls,
    map fst rolls = weapons_of modules /\
    Forall (fun nr => 1 <= snd nr <= 20) rolls /\
    v_rolls (fst (fire_all modules v g)) = v_rolls v ++ rolls /\
    v_used (fst (fire_all modules v g))
      = (v_used v + length (weapons_of modules))%nat /\
    cursor (snd (fire_all modules v g))
      = (cursor g + 2 * length (weapons_of modules))%nat /\
    entropy (snd (fire_all modules v g)) = entropy g.
Proof.
  induction modules as [| m rest IH]; intros v g.
  - exists []. cbn. rewrite app_nil_r, !Nat.add_0_r.
    repeat split; constructor.
  - cbn [fire_all weapons_of List.filter]. unfold bind.
    destruct (is_weapon m) eqn:Hw.
    + destruct (fire_module_fires m v g Hw)
        as (roll & Hroll & Hrolls & Hused & Hcur & Hent).
      destruct (fire_module m v g) as [v1 g1]. cbn [fst snd] in *.
      destruct (IH v1 g1) as (rolls & Hn & Hall & Hr & Hu & Hc & He).
      exists ((m, roll) :: rolls). fold (weapons_of rest) in *.
      cbn [map fst length]. rewrite Hn, Hr, Hu, Hc, He, Hrolls, Hused, Hcur, Hent.
      rewrite <- app_assoc. cbn [app].
      repeat split; try reflexivity; try lia.
      constructor; [exact Hroll | exact Hall].
    + rewrite (fire_module_skips m v g Hw). fold (weapons_of rest).
      apply IH.
Qed.

(** X2: The roll summary that closes the log of a volley names exactly the
    installed weapons of the registry, each once and in installation order,
    with a roll of 1..20; modules that are unknown or no weapons are passed
    over in silence.  As many weapons are counted, and the volley draws two
    random values for each. *)
Theorem volley_fires_each_weapon_once
    (enemy : Enemy) (modules : list string) (power ammo_ : Z) (g : rng) :
  let out := perform_attack enemy modules power ammo_ g in
  let enemy' := fst (fst (fst (fst out))) in
  let log := snd (fst (fst (fst out))) in
  exists front rolls,
    log = front
          ++ [LEnemyStatus (e_name enemy') (Z.max 0 (e_hull enemy'))
                (e_armor enemy') (Z.max 0 (e_shields enemy')); LRolls]
          ++ map (fun nr => LRoll (fst nr) (snd nr)) rolls /\
    map fst rolls = weapons_of modules /\
    Forall (fun nr => 1 <= snd nr <= 20) rolls /\
    cursor (snd out) = (cursor g + 2 * length (weapons_of modules))%nat.
Proof.
  cbv zeta. unfold perform_attack, bind, ret.
  destruct (fire_all_record modules
              (mk_volley enemy power ammo_ [LCombatLog] [] 0) g)
    as (rolls & Hn & Hall & Hr & _ & Hc & _).
  destruct (fire_all modules _ g) as [v g1]. cbn [fst snd] in *.
  cbn [v_rolls app] in Hr. rewrite Hr.
  eexists. exists rolls.
  split; [reflexivity |]. split; [exact Hn |]. split; [exact Hall | exact Hc].
Qed.

Lemma fire_all_skips (modules : list string) (v : Volley) (g : rng) :
  weapons_of modules = [] -> fire_all modules v g = (v, g).
Proof.
  induction modules as [| m rest IH]; intros Hnone; [reflexivity |].
  cbn [weapons_of List.filter] in Hnone. cbn [fire_all]. unfold bind.
  destruct (is_weapon m) eqn:Hw; [discriminate Hnone |].
  rewrite (fire_module_skips m v g Hw). apply IH. exact Hnone.
Qed.

Lemma resolve_shot_logs (mod_name : string) (md : Module_)
    (attack_roll dmg : Z) (v : Volley) :
  forallb not_no_weapons (v_logs (resolve_shot mod_name md attack_roll dmg v))
  = forallb not_no_weapons (v_logs v).
Proof.
  unfold resolve_shot, check_resources, apply_shot, damage_enemy,
    shields_absorb, v_log, counted.
  repeat match goal with
         | |- context [if ?b then _ else _] => destruct b
         end;
    cbn [v_logs v_enemy v_ammo v_power];
    rewrite ?forallb_app; cbn [forallb not_no_weapons];
    rewrite ?andb_true_r; reflexivity.
Qed.

Lemma fire_all_logs (modules : list string) :
  forall (v : Volley) (g : rng),
    forallb not_no_weapons (v_logs (fst (fire_all modules v g)))
    = forallb not_no_weapons (v_logs v).
Proof.
  induction modules as [| m rest IH]; intros v g; [reflexivity |].
  cbn [fire_all]. unfold bind.
  destruct (fire_module m v g) as [v1 g1] eqn:Hstep.
  rewrite IH. unfold fire_module in Hstep.
  destruct (get_module m) as [md |]; [| injection Hstep as <- _; reflexivity].
  destruct (String.eqb (m_type md) "weapon");
    [| injection Hstep as <- _; reflexivity].
  unfold bind, ret in Hstep.
  destruct (roll_dice 20 g) as [roll g2].
  destruct (default (5, 10) (damage md)) as [lo hi].
  destruct (randint lo hi g2) as [dmg g3].
  injection Hstep as <- _. apply resolve_shot_logs.
Qed.

(** X3: A volley from a ship with no weapon of the registry installed (no
    modules at all, only mining or utility modules, or names the registry
    does not know) changes nothing: enemy, power and ammo are returned as
    they came, no random value is drawn, and the log is the header, the "No
    weapons" line, the enemy's status and an empty roll summary.  That line
    is logged in no other case. *)
Theorem volley_without_weapons
    (enemy : Enemy) (modules : list string) (power ammo_ : Z) (g : rng) :
  (weapons_of modules = [] ->
     perform_attack enemy modules power ammo_ g
     = (enemy,
        [LCombatLog; LNoWeapons;
         LEnemyStatus (e_name enemy) (Z.max 0 (e_hull enemy)) (e_armor enemy)
                      (Z.max 0 (e_shields enemy));
         LRolls],
        power, ammo_, g)) /\
  (In LNoWeapons (snd (fst (fst (fst (perform_attack enemy modules
                                                     power ammo_ g)))))
   <-> weapons_of modules = []).
Proof.
  assert (Hnone : weapons_of modules = [] ->
     perform_attack enemy modules power ammo_ g
     = (enemy,
        [LCombatLog; LNoWeapons;
         LEnemyStatus (e_name enemy) (Z.max 0 (e_hull enemy)) (e_armor enemy)
                      (Z.max 0 (e_shields enemy));
         LRolls],
        power, ammo_, g)).
  { intros H. unfold perform_attack, bind, ret.
    rewrite (fire_all_skips modules _ g H). reflexivity. }
  split; [exact Hnone |]. split.
  - intros Hin.
    destruct (weapons_of modules) as [| w ws] eqn:Hw; [reflexivity |].
    exfalso. revert Hin. unfold perform_attack, bind, ret.
    pose proof (fire_all_record modules
                  (mk_volley enemy power ammo_ [LCombatLog] [] 0) g)
      as (rolls & _ & _ & _ & Hused & _).
    pose proof (fire_all_logs modules
                  (mk_volley enemy power ammo_ [LCombatLog] [] 0) g) as Hlogs.
    destruct (fire_all modules _ g) as [v g1]. cbn [fst snd] in *.
    rewrite Hw in Hused. cbn in Hused. rewrite Hused. cbn [Nat.eqb].
    cbn in Hlogs. rewrite forallb_forall in Hlogs.
    rewrite !in_app_iff. intros [Hin | [Hin | Hin]].
    + apply Hlogs in Hin. discriminate Hin.
    + destruct Hin as [Hin | [Hin | []]]; discriminate Hin.
    + apply in_map_iff in Hin. destruct Hin as (nr & Hnr & _).
      discriminate Hnr.
  - intros H. rewrite (Hnone H). cbn. tauto.
Qed.

Lemma volley_without_weapons_witness :
  weapons_of ["Basic Mining Drill"; "Basic Laser Cannon"; "Cargo Pod"] = [] /\
  snd (perform_attack PIRATE_TEMPLATE
         ["Basic Mining Drill"; "Basic Laser Cannon"; "Cargo Pod"]
         100 50 (tape [19; 12]))
  = tape [19; 12].
Proof.
  assert (H : weapons_of ["Basic Mining Drill"; "Basic Laser Cannon";
                          "Cargo Pod"] = []) by (vm_compute; reflexivity).
  destruct (volley_without_weapons PIRATE_TEMPLATE
              ["Basic Mining Drill"; "Basic Laser Cannon"; "Cargo Pod"]
              100 50 (tape [19; 12])) as [Hnone _].
  split; [exact H |]. rewrite (Hnone H). reflexivity.
Defined.

(** ** The volley: what it does to the enemy *)

Lemma worn_down_refl (e : Enemy) : 0 <= e_shields e -> worn_down e e.
Proof. unfold worn_down. intros H. repeat split; try lia; reflexivity. Qed.

Lemma worn_down_trans (e1 e2 e3 : Enemy) :
  worn_down e1 e2 -> worn_down e2 e3 -> worn_down e1 e3.
Proof.
  unfold worn_down.
  intros (Hs1 & Hh1 & Hz1 & Hn1 & Hc1 & Ha1 & Hw1 & Hd1 & Hy1)
         (Hs2 & Hh2 & Hz2 & Hn2 & Hc2 & Ha2 & Hw2 & Hd2 & Hy2).
  repeat split; try congruence; lia.
Qed.

Lemma damage_enemy_worn_down (name dtype : string) (roll d : Z) (e : Enemy) :
  0 <= d -> 0 <= e_shields e ->
  worn_down e (fst (damage_enemy name dtype roll d e)).
Proof.
  intros Hd Hs. unfold worn_down.
  rewrite (damage_enemy_shields name dtype roll d e Hs Hd).
  rewrite (damage_enemy_hull name dtype roll d e Hs Hd).
  unfold spec_shields, spec_hull.
  split; [lia |]. split; [lia |]. split; [lia |].
  unfold damage_enemy, shields_absorb.
  destruct (0 <? e_shields e);
    match goal with |- context [0 <? ?r] => destruct (0 <? r) end;
    repeat split; reflexivity.
Qed.

Lemma multiplier_of_nonneg (w : list (string * Q)) (dtype : string) :
  nonneg_weakness w -> 0 <= Qnum (multiplier_of w dtype).
Proof.
  unfold nonneg_weakness. induction w as [| [k q] rest IH]; intros Hall.
  - cbn. lia.
  - inversion Hall as [| ? ? Hq Hrest]; subst. cbn [multiplier_of].
    destruct (String.eqb k dtype); [exact Hq | apply IH; exact Hrest].
Qed.

Lemma int_mul_nonneg (x : Z) (q : Q) :
  0 <= x -> 0 <= Qnum q -> 0 <= int_mul x q.
Proof. intros Hx Hq. unfold int_mul. apply Z.quot_pos; lia. Qed.

(** Every weapon of the registry has a damage range [0 <= lo <= hi]. *)
Lemma registry_damage_ranges (name : string) (md : Module_) :
  get_module name = Some md -> m_type md = "weapon" ->
  0 <= fst (default (5, 10) (damage md)) <= snd (default (5, 10) (damage md)).
Proof.
  revert name md.
  apply (registry_forall
           (fun _ md => m_type md = "weapon" ->
              0 <= fst (default (5, 10) (damage md))
                <= snd (default (5, 10) (damage md)))).
  unfold MODULE_TABLE.
  repeat (apply Forall_cons; split;
          [cbn; intros Hty; first [discriminate Hty | lia] |]).
  apply Forall_nil. exact I.
Qed.

Lemma apply_shot_worn_down (mod_name : string) (md : Module_)
    (attack_roll dmg : Z) (v : Volley) :
  0 <= dmg -> nonneg_weakness (weakness (v_enemy v)) ->
  0 <= e_shields (v_enemy v) ->
  worn_down (v_enemy v) (v_enemy (apply_shot mod_name md attack_roll dmg v)).
Proof.
  intros Hd Hw Hs. unfold apply_shot.
  match goal with |- context [damage_enemy ?n ?t ?r ?d ?e] =>
    pose proof (damage_enemy_worn_down n t r d e) as H;
    destruct (damage_enemy n t r d e) as [e' ls]
  end.
  cbn [fst v_enemy] in *. apply H; [| exact Hs].
  apply int_mul_nonneg; [exact Hd | apply multiplier_of_nonneg; exact Hw].
Qed.

Lemma resolve_shot_worn_down (mod_name : string) (md : Module_)
    (attack_roll dmg : Z) (v : Volley) :
  0 <= dmg -> nonneg_weakness (weakness (v_enemy v)) ->
  0 <= e_shields (v_enemy v) ->
  worn_down (v_enemy v) (v_enemy (resolve_shot mod_name md attack_roll dmg v)).
Proof.
  intros Hd Hw Hs.
  assert (Hcrit : 0 <= int_mul dmg (18 # 10))
    by (apply int_mul_nonneg; [exact Hd | cbn; lia]).
  unfold resolve_shot, check_resources.
  repeat match goal with
         | |- context [if ?b then _ else _] => destruct b
         end;
    try (apply worn_down_refl; exact Hs);
    match goal with |- context [apply_shot ?n ?m ?r ?d ?w] =>
      apply (apply_shot_worn_down n m r d w); assumption end.
Qed.

Lemma fire_module_worn_down (mod_name : string) (v : Volley) (g : rng) :
  nonneg_weakness (weakness (v_enemy v)) -> 0 <= e_shields (v_enemy v) ->
  worn_down (v_enemy v) (v_enemy (fst (fire_module mod_name v g))).
Proof.
  intros Hw Hs. unfold fire_module.
  destruct (get_module mod_name) as [md |] eqn:Hget;
    [| apply worn_down_refl; exact Hs].
  destruct (String.eqb (m_type md) "weapon") eqn:Hty;
    [| apply worn_down_refl; exact Hs].
  apply String.eqb_eq in Hty.
  pose proof (registry_damage_ranges mod_name md Hget Hty) as Hrange.
  unfold bind, ret.
  destruct (roll_dice 20 g) as [roll g1].
  destruct (default (5, 10) (damage md)) as [lo hi]. cbn [fst snd] in Hrange.
  pose proof (randint_range lo hi g1 (proj2 Hrange)) as Hd.
  destruct (randint lo hi g1) as [dmg g2]. cbn [fst] in *.
  apply resolve_shot_worn_down; [lia | exact Hw | exact Hs].
Qed.

Lemma fire_all_worn_down (modules : list string) :
  forall (v : Volley) (g : rng),
    nonneg_weakness (weakness (v_enemy v)) -> 0 <= e_shields (v_enemy v) ->
    worn_down (v_enemy v) (v_enemy (fst (fire_all modules v g))).
Proof.
  induction modules as [| m rest IH]; intros v g Hw Hs.
  - apply worn_down_refl. exact Hs.
  - cbn [fire_all]. unfold bind.
    pose proof (fire_module_worn_down m v g Hw Hs) as Hstep.
    destruct (fire_module m v g) as [v1 g1]. cbn [fst] in *.
    eapply worn_down_trans; [exact Hstep |].
    destruct Hstep as (Hs1 & _ & _ & _ & _ & _ & Hw1 & _).
    apply IH; [rewrite Hw1; exact Hw | lia].
Qed.

(** X4: A volley never repairs the enemy.  Against an enemy whose weakness
    multipliers and shields are not negative, whatever is installed and
    whatever is rolled, the shields end between 0 and their old value, the
    hull ends at or below its old value, the hull is touched only once the
    shields are at zero, and no other key of the enemy record changes. *)
Theorem volley_only_wears_the_enemy_down
    (enemy : Enemy) (modules : list string) (power ammo_ : Z) (g : rng) :
  nonneg_weakness (weakness enemy) -> 0 <= e_shields enemy ->
  let enemy' := fst (fst (fst (fst (perform_attack enemy modules
                                                   power ammo_ g)))) in
  0 <= e_shields enemy' <= e_shields enemy /\
  e_hull enemy' <= e_hull enemy /\
  (e_hull enemy' < e_hull enemy -> e_shields enemy' = 0) /\
  e_name enemy' = e_name enemy /\ e_class enemy' = e_class enemy /\
  e_armor enemy' = e_armor enemy /\ weakness enemy' = weakness enemy /\
  damage_range enemy' = damage_range enemy /\
  accuracy enemy' = accuracy enemy.
Proof.
  intros Hw Hs. cbv zeta. unfold perform_attack, bind, ret.
  pose proof (fire_all_worn_down modules
                (mk_volley enemy power ammo_ [LCombatLog] [] 0) g Hw Hs) as H.
  destruct (fire_all modules _ g) as [v g1]. exact H.
Qed.

Lemma volley_only_wears_the_enemy_down_witness :
  nonneg_weakness (weakness PIRATE_TEMPLATE) /\
  0 <= e_shields PIRATE_TEMPLATE /\
  e_shields (fst (fst (fst (fst (perform_attack PIRATE_TEMPLATE
       (ship_modules gunship) 100 50 killing_volley))))) = 0.
Proof.
  assert (Hw : nonneg_weakness (weakness PIRATE_TEMPLATE)).
  { unfold nonneg_weakness. cbn.
    repeat (apply Forall_cons; split; [cbn; lia |]). apply Forall_nil. exact I. }
  assert (Hs : 0 <= e_shields PIRATE_TEMPLATE) by (simpl; lia).
  destruct (volley_only_wears_the_enemy_down PIRATE_TEMPLATE
              (ship_modules gunship) 100 50 killing_volley Hw Hs)
    as (_ & _ & Hz & _).
  split; [exact Hw |]. split; [exact Hs |].
  apply Hz. vm_compute. reflexivity.
Defined.

(** ** The turn and the session *)

(** Only the Attack action touches the enemy record. *)
Lemma handle_player_action_enemy (player : Player) (enemy : Enemy)
    (power ammo_ : Z) (action : string) (g : rng) :
  action <> "1" ->
  fst (fst (fst (fst (handle_player_action player enemy power ammo_
                                           action g)))) = enemy.
Proof.
  intros Hne. apply String.eqb_neq in Hne.
  unfold handle_player_action. rewrite Hne.
  destruct (String.eqb action "2").
  { unfold bind, ret. destruct (emergency_power power g). reflexivity. }
  destruct (String.eqb action "3").
  { unfold bind, ret. destruct (scan_enemy enemy g). reflexivity. }
  destruct (String.eqb action "4"); [| reflexivity].
  unfold bind, ret. destruct (chance 50 g) as [[|] g1]; reflexivity.
Qed.

(** No action takes a counter that is not negative below zero. *)
Lemma handle_player_action_counters (player : Player) (enemy : Enemy)
    (power ammo_ : Z) (action : string) (g : rng) :
  0 <= power -> 0 <= ammo_ ->
  let out := fst (handle_player_action player enemy power ammo_ action g) in
  0 <= snd (fst out) /\ 0 <= snd out /\ snd out <= ammo_.
Proof.
  intros Hp Ha. cbv zeta. unfold handle_player_action.
  destruct (String.eqb action "1").
  { pose proof (perform_attack_spends enemy (ship_modules player)
                  power ammo_ g) as Hs.
    cbv zeta in Hs. unfold spends in Hs. lia. }
  destruct (String.eqb action "2").
  { unfold bind, ret.
    destruct (Z_lt_le_dec (fst (roll_dice 20 g)) 14) as [Hroll | Hroll].
    - destruct (emergency_power_failure power g Hroll) as (pen & _ & Heq).
      destruct (emergency_power power g) as [[l r] g1]. cbn in *. lia.
    - destruct (emergency_power_success power g Hroll) as (boost & Hb & Heq).
      destruct (emergency_power power g) as [[l r] g1]. cbn in *. lia. }
  destruct (String.eqb action "3").
  { unfold bind, ret. destruct (scan_enemy enemy g). cbn. lia. }
  destruct (String.eqb action "4"); [| cbn; lia].
  unfold bind, ret. destruct (chance 50 g) as [[|] g1]; cbn; lia.
Qed.

(** X5: In the turn in which the enemy's hull is brought to zero or below the
    enemy does not fire: the player record leaves the turn as it entered
    it. *)
Theorem killing_turn_leaves_player_unharmed
    (ship_stats : ShipData) (action : string) (s : Session) (g : rng) :
  let s' := fst (turn_body ship_stats action s g) in
  e_hull (s_enemy s') <= 0 -> s_player s' = s_player s.
Proof.
  cbv zeta.
  pose proof (turn_body_regen ship_stats action s g) as H. cbv zeta in H.
  destruct H as (Hp & He & _). rewrite Hp, He. clear Hp He.
  unfold exchange, bind, ret.
  destruct (handle_player_action _ _ _ _ action g)
    as [[[[enemy1 p_log] power1] ammo1] g1].
  destruct (0 <? e_hull enemy1) eqn:Halive; [| reflexivity].
  apply Z.ltb_lt in Halive.
  destruct (enemy_attack (s_player s) enemy1 g1) as [a g2]. cbn. lia.
Qed.

Lemma killing_turn_leaves_player_unharmed_witness :
  let s0 := fst (start_session gunship PIRATE_TEMPLATE) in
  let ship_stats := snd (start_session gunship PIRATE_TEMPLATE) in
  e_hull (s_enemy (fst (turn_body ship_stats "1" s0 killing_volley))) <= 0 /\
  s_player (fst (turn_body ship_stats "1" s0 killing_volley)) = gunship.
Proof.
  intros s0 ship_stats.
  assert (H : e_hull (s_enemy (fst (turn_body ship_stats "1" s0
                                              killing_volley))) <= 0)
    by (vm_compute; discriminate).
  split; [exact H |].
  exact (killing_turn_leaves_player_unharmed ship_stats "1" s0
           killing_volley H).
Defined.

Lemma combat_loop_without_attack (ship_stats : ShipData)
    (inputs : nat -> string) (fuel : nat) :
  (forall t, inputs t <> "1") ->
  forall (s s' : Session) (g : rng),
    fst (combat_loop fuel ship_stats inputs s g) = Some s' ->
    s_enemy s' = s_enemy s.
Proof.
  intros Hidle.
  induction fuel as [| fuel IH]; intros s s' g Hrun; cbn [combat_loop] in Hrun.
  - destruct (active s); [discriminate Hrun |]. injection Hrun as <-.
    reflexivity.
  - destruct (active s); [| injection Hrun as <-; reflexivity].
    unfold bind in Hrun.
    pose proof (turn_body_regen ship_stats (inputs (s_turn s)) s g) as Ht.
    cbv zeta in Ht. destruct Ht as (_ & He & _).
    assert (Hx : x_enemy (fst (exchange (inputs (s_turn s)) s g)) = s_enemy s).
    { unfold exchange, bind, ret.
      pose proof (handle_player_action_enemy (s_player s) (s_enemy s)
                    (s_power s) (s_ammo s) (inputs (s_turn s)) g
                    (Hidle (s_turn s))) as Hsame.
      destruct (handle_player_action _ _ _ _ _ g)
        as [[[[enemy1 p_log] power1] ammo1] g1]. cbn [fst] in Hsame.
      destruct (0 <? e_hull enemy1);
        [destruct (enemy_attack _ enemy1 g1) |]; exact Hsame. }
    destruct (turn_body ship_stats (inputs (s_turn s)) s g) as [s1 g1].
    cbn [fst] in He. rewrite (IH s1 s' g1 Hrun). congruence.
Qed.

(** X6: A player who never chooses Attack cannot win.  Let the player type
    the lines [lines t], each of which [combat_menu] strips of surrounding
    whitespace before the engine sees it.  If no stripped line is "1" and
    the enemy enters with a positive hull, then whenever the session ends
    it ends in defeat, the enemy record being exactly the template: Scan,
    Emergency Power, Retreat and unrecognised input never touch it. *)
Theorem no_victory_without_attack
    (fuel : nat) (strip : string -> string) (lines : nat -> string)
    (player : Player) (enemy_template : Enemy) (d : Disk) (g : rng)
    (o : Outcome) :
  (forall t, combat_menu strip (lines t) <> "1") ->
  0 < e_hull enemy_template ->
  fst (engage_pirates fuel (fun t => combat_menu strip (lines t)) player
                      enemy_template d g) = Some o ->
  o_result o = false /\ s_enemy (o_session o) = enemy_template /\
  hull (o_player o) <= 0 /\ credits (o_player o) = credits player.
Proof.
  intros Hidle Halive. unfold engage_pirates, start_session, get_player_ship.
  rewrite apply_modules_closed_form. unfold bind, ret.
  match goal with |- context [combat_loop fuel ?sh ?inputs ?s0 g] =>
    pose proof (combat_loop_without_attack sh inputs fuel Hidle s0) as Hsame;
    pose proof (combat_loop_untouched sh inputs fuel s0) as Hloop;
    destruct (combat_loop fuel sh inputs s0 g) as [[s |] g1] eqn:Hrun
  end; [| discriminate].
  specialize (Hsame s g). specialize (Hloop s g).
  rewrite Hrun in Hsame, Hloop.
  specialize (Hsame eq_refl). destruct (Hloop eq_refl) as [(_ & Hc & _) Hdone].
  cbn [s_enemy s_player] in Hsame, Hc.
  unfold active in Hdone. rewrite Hsame in Hdone.
  apply Z.ltb_lt in Halive. rewrite Halive in Hdone. cbn [andb] in Hdone.
  apply Z.ltb_ge in Hdone.
  unfold resolution, ret, bind.
  destruct (hull (s_player s) <=? 0) eqn:Hdead;
    [| apply Z.leb_gt in Hdead; lia].
  cbn [fst]. intros [= <-]. cbn.
  split; [reflexivity |]. split; [exact Hsame |]. split; [exact Hdone |].
  rewrite Hc. destruct player; reflexivity.
Qed.

(** Scan typed without surrounding whitespace, so that any [strip] leaves
    the line as it is: the raider's critical hit for 32 ends the session
    in defeat. *)
Lemma no_victory_without_attack_witness :
  let strip := fun line : string => line in
  let lines := fun _ : nat => "3" in
  let g := tape [19; 19; 10] in
  (forall t, combat_menu strip (lines t) <> "1") /\
  0 < e_hull PIRATE_TEMPLATE /\
  o_result <$> fst (engage_pirates 1 (fun t => combat_menu strip (lines t))
                                   limping_player PIRATE_TEMPLATE None g)
  = Some false.
Proof.
  intros strip lines g.
  assert (Hidle : forall t, combat_menu strip (lines t) <> "1")
    by (intros t; discriminate).
  assert (Halive : 0 < e_hull PIRATE_TEMPLATE) by (simpl; lia).
  destruct (fst (engage_pirates 1 (fun t => combat_menu strip (lines t))
                                limping_player PIRATE_TEMPLATE None g))
    as [o |] eqn:Hrun; [| vm_compute in Hrun; discriminate Hrun].
  destruct (no_victory_without_attack 1 strip lines limping_player
              PIRATE_TEMPLATE None g o Hidle Halive Hrun) as (Hres & _).
  split; [exact Hidle |]. split; [exact Halive |].
  cbn. rewrite Hres. reflexivity.
Defined.

(** X7: Emergency Power on a grid of 0..140: a roll of 14 or more never lowers
    the power, raises it by at least 12 unless that would pass 140, and
    never leaves more than 140; a roll below 14 never raises it, takes at
    least 8 unless that would pass 0, and never leaves less than 0. *)
Theorem emergency_power_bounds (power : Z) (g : rng) :
  0 <= power <= 140 ->
  let roll := fst (roll_dice 20 g) in
  let power' := snd (fst (emergency_power power g)) in
  (14 <= roll ->
     power <= power' <= 140 /\ Z.min 140 (power + 12) <= power' /\
     power' <= power + 30) /\
  (roll < 14 ->
     0 <= power' <= power /\ power' <= Z.max 0 (power - 8) /\
     Z.max 0 (power - 25) <= power').
Proof.
  intros Hp. cbv zeta. split; intros Hroll.
  - destruct (emergency_power_success power g Hroll) as (boost & Hb & ->). lia.
  - destruct (emergency_power_failure power g Hroll) as (pen & Hb & ->). lia.
Qed.

Lemma emergency_power_bounds_witness :
  0 <= 135 <= 140 /\ 14 <= fst (roll_dice 20 (tape [13; 18])) /\
  snd (fst (emergency_power 135 (tape [13; 18]))) = 140.
Proof.
  assert (Hp : 0 <= 135 <= 140) by lia.
  assert (Hr : 14 <= fst (roll_dice 20 (tape [13; 18])))
    by (vm_compute; discriminate).
  destruct (emergency_power_bounds 135 (tape [13; 18]) Hp) as [Hok _].
  destruct (Hok Hr) as ((_ & Hhi) & Hlo & _).
  split; [exact Hp |]. split; [exact Hr |].
  apply Z.le_antisymm; [exact Hhi | exact Hlo].
Defined.

(** One turn keeps the counters in range. *)
Lemma turn_body_counters (ship_stats : ShipData) (action : string)
    (s : Session) (g : rng) :
  0 <= power_grid ship_stats -> 0 <= s_power s -> 0 <= s_ammo s ->
  let s' := fst (turn_body ship_stats action s g) in
  0 <= s_power s' <= power_grid ship_stats /\
  0 <= s_ammo s' <= s_ammo s + 1.
Proof.
  intros Hcap Hp Ha. cbv zeta.
  pose proof (turn_body_regen ship_stats action s g) as H. cbv zeta in H.
  destruct H as (_ & _ & Hpow & Hammo & _). rewrite Hpow, Hammo.
  assert (Hx : 0 <= x_power (fst (exchange action s g)) /\
               0 <= x_ammo (fst (exchange action s g)) <= s_ammo s).
  { unfold exchange, bind, ret.
    pose proof (handle_player_action_counters (s_player s) (s_enemy s)
                  (s_power s) (s_ammo s) action g Hp Ha) as Hc.
    cbv zeta in Hc.
    destruct (handle_player_action _ _ _ _ action g)
      as [[[[enemy1 p_log] power1] ammo1] g1]. cbn [fst snd] in Hc.
    destruct (0 <? e_hull enemy1);
      [destruct (enemy_attack _ enemy1 g1) |]; cbn; lia. }
  unfold regen_power.
  pose proof (Z.le_max_l 3 (default 5 (speed ship_stats) / 2)).
  destruct (fst (chance 5 (snd (exchange action s g)))); lia.
Qed.

Lemma combat_loop_counters (ship_stats : ShipData) (inputs : nat -> string)
    (fuel : nat) :
  0 <= power_grid ship_stats ->
  forall (s s' : Session) (g : rng),
    0 <= s_power s <= power_grid ship_stats -> 0 <= s_ammo s ->
    fst (combat_loop fuel ship_stats inputs s g) = Some s' ->
    0 <= s_power s' <= power_grid ship_stats /\ 0 <= s_ammo s'.
Proof.
  intros Hcap.
  induction fuel as [| fuel IH]; intros s s' g Hp Ha Hrun;
    cbn [combat_loop] in Hrun.
  - destruct (active s); [discriminate Hrun |]. injection Hrun as <-. lia.
  - destruct (active s); [| injection Hrun as <-; lia].
    unfold bind in Hrun.
    pose proof (turn_body_counters ship_stats (inputs (s_turn s)) s g
                  Hcap (proj1 Hp) Ha) as Ht. cbv zeta in Ht.
    destruct (turn_body ship_stats (inputs (s_turn s)) s g) as [s1 g1].
    cbn [fst] in Ht. apply (IH s1 s' g1); [lia | lia | exact Hrun].
Qed.

(** X8: The power and ammo of a session stay in range.  With a ship whose
    power grid (with the Reactor Upgrades) is not negative and a player
    whose ammo is not negative, every turn ends with power between 0 and
    the ship's grid, so no surplus of an Emergency Power outlives its turn,
    and with ammo not negative and at most one above the ammo it began
    with; the session ends within the same bounds. *)
Theorem session_counters_stay_in_range
    (fuel : nat) (inputs : nat -> string) (player : Player)
    (enemy_template : Enemy) (d : Disk) (g g' : rng) (o : Outcome)
    (action : string) (s : Session) :
  let cap := power_grid (snd (get_player_ship player)) in
  0 <= cap -> 0 <= ammo player ->
  0 <= s_power s -> 0 <= s_ammo s ->
  fst (engage_pirates fuel inputs player enemy_template d g) = Some o ->
  let s' := fst (turn_body (snd (get_player_ship player)) action s g') in
  (0 <= s_power s' <= cap /\ 0 <= s_ammo s' <= s_ammo s + 1) /\
  0 <= s_power (o_session o) <= cap /\ 0 <= s_ammo (o_session o).
Proof.
  cbv zeta. intros Hcap Ha Hsp Hsa Hrun.
  split; [apply turn_body_counters; assumption |].
  revert Hrun. unfold engage_pirates, start_session.
  destruct (get_player_ship player) as [p1 ship_stats] eqn:Hship.
  cbn [snd] in Hcap.
  assert (Hammo : ammo p1 = ammo player).
  { unfold get_player_ship in Hship.
    rewrite apply_modules_closed_form in Hship.
    injection Hship as <- _. destruct player; reflexivity. }
  unfold bind, ret.
  match goal with |- context [combat_loop fuel ?sh inputs ?s0 g] =>
    pose proof (combat_loop_counters sh inputs fuel Hcap s0) as Hloop;
    destruct (combat_loop fuel sh inputs s0 g) as [[s1 |] g1] eqn:Hrun
  end; [| discriminate].
  specialize (Hloop s1 g). rewrite Hrun in Hloop. cbn [s_power s_ammo] in Hloop.
  specialize (Hloop ltac:(lia) ltac:(lia) eq_refl).
  unfold resolution, ret, bind.
  destruct (hull (s_player s1) <=? 0).
  - cbn [fst]. intros [= <-]. cbn. exact Hloop.
  - destruct (randint 150 400 g1) as [reward g2]. cbn [fst].
    intros [= <-]. cbn. exact Hloop.
Qed.

Lemma session_counters_stay_in_range_witness :
  let s0 := fst (start_session gunship PIRATE_TEMPLATE) in
  0 <= power_grid (snd (get_player_ship gunship)) /\ 0 <= ammo gunship /\
  0 <= s_power s0 /\ 0 <= s_ammo s0 /\
  exists o,
    fst (engage_pirates 1 (fun _ => "1") gunship PIRATE_TEMPLATE None
                        killing_volley) = Some o /\
    0 <= s_power (o_session o) <= 100.
Proof.
  intros s0.
  assert (H0 : 0 <= power_grid (snd (get_player_ship gunship)))
    by (vm_compute; discriminate).
  assert (H1 : 0 <= ammo gunship) by (simpl; lia).
  assert (H2 : 0 <= s_power s0) by (vm_compute; discriminate).
  assert (H3 : 0 <= s_ammo s0) by (vm_compute; discriminate).
  destruct (fst (engage_pirates 1 (fun _ => "1") gunship PIRATE_TEMPLATE None
                                killing_volley)) as [o |] eqn:Hrun;
    [| vm_compute in Hrun; discriminate Hrun].
  destruct (session_counters_stay_in_range 1 (fun _ => "1") gunship
              PIRATE_TEMPLATE None killing_volley killing_volley o "1" s0
              H0 H1 H2 H3 Hrun) as (_ & Hp & _).
  split; [exact H0 |]. split; [exact H1 |]. split; [exact H2 |].
  split; [exact H3 |]. exists o. split; [reflexivity | exact Hp].
Defined.

Lemma damage_player_shields_nonneg (name : string) (d : Z) (p : Player) :
  0 <= shields p -> 0 <= shields (fst (damage_player name d p)).
Proof.
  intros Hs. unfold damage_player.
  destruct (0 <? shields p);
    match goal with |- context [0 <? ?r] => destruct (0 <? r) end;
    cbn; lia.
Qed.

Lemma exchange_shields_nonneg (action : string) (s : Session) (g : rng) :
  0 <= shields (s_player s) ->
  0 <= shields (x_player (fst (exchange action s g))).
Proof.
  intros Hs. unfold exchange, bind, ret.
  destruct (handle_player_action _ _ _ _ action g)
    as [[[[enemy1 p_log] power1] ammo1] g1].
  destruct (0 <? e_hull enemy1); [| exact Hs].
  unfold enemy_attack, bind, ret.
  destruct (roll_dice 20 g1) as [roll g2].
  destruct (roll <=? 3); [exact Hs |].
  destruct (randint _ _ g2) as [dmg g3].
  destruct (roll =? 20).
  - pose proof (damage_player_shields_nonneg (e_name enemy1)
                  (int_mul dmg (18 # 10)) (s_player s) Hs).
    destruct (damage_player _ _ (s_player s)). assumption.
  - pose proof (damage_player_shields_nonneg (e_name enemy1) dmg
                  (s_player s) Hs).
    destruct (damage_player _ _ (s_player s)). assumption.
Qed.

Lemma combat_loop_player_nonneg (ship_stats : ShipData)
    (inputs : nat -> string) (fuel : nat) :
  forall (s s' : Session) (g : rng),
    0 <= hull (s_player s) -> 0 <= shields (s_player s) ->
    fst (combat_loop fuel ship_stats inputs s g) = Some s' ->
    0 <= hull (s_player s') /\ 0 <= shields (s_player s').
Proof.
  induction fuel as [| fuel IH]; intros s s' g Hh Hs Hrun;
    cbn [combat_loop] in Hrun.
  - destruct (active s); [discriminate Hrun |]. injection Hrun as <-.
    split; assumption.
  - destruct (active s) eqn:Hact;
      [| injection Hrun as <-; split; assumption].
    unfold bind in Hrun.
    pose proof (turn_body_regen ship_stats (inputs (s_turn s)) s g) as Ht.
    cbv zeta in Ht. destruct Ht as (Hp & _).
    pose proof (exchange_hull_nonneg (inputs (s_turn s)) s g Hact) as Hh1.
    pose proof (exchange_shields_nonneg (inputs (s_turn s)) s g Hs) as Hs1.
    rewrite <- Hp in Hh1, Hs1.
    destruct (turn_body ship_stats (inputs (s_turn s)) s g) as [s1 g1].
    cbn [fst] in *. exact (IH s1 s' g1 Hh1 Hs1 Hrun).
Qed.

(** X9: What the return value of a session means.  For a player who enters
    with hull and shields not negative: [True] is returned exactly when
    the player's hull is still positive, and then the enemy's hull is zero
    or below; [False] is returned exactly when the player's hull is zero,
    never below; the shields are not negative either way. *)
Theorem session_result_meaning
    (fuel : nat) (inputs : nat -> string) (player : Player)
    (enemy_template : Enemy) (d : Disk) (g : rng) (o : Outcome) :
  0 <= hull player -> 0 <= shields player ->
  fst (engage_pirates fuel inputs player enemy_template d g) = Some o ->
  (o_result o = true <-> 0 < hull (o_player o)) /\
  (o_result o = false <-> hull (o_player o) = 0) /\
  (o_result o = true -> e_hull (s_enemy (o_session o)) <= 0) /\
  0 <= shields (o_player o).
Proof.
  intros Hh Hs. unfold engage_pirates, start_session, get_player_ship.
  rewrite apply_modules_closed_form. unfold bind, ret.
  assert (Hboost : 0 <= installed "Shield Booster" (ship_modules player))
    by (unfold installed; lia).
  match goal with |- context [combat_loop fuel ?sh inputs ?s0 g] =>
    pose proof (combat_loop_player_nonneg sh inputs fuel s0) as Hinv;
    pose proof (combat_loop_untouched sh inputs fuel s0) as Hloop;
    destruct (combat_loop fuel sh inputs s0 g) as [[s |] g1] eqn:Hrun
  end; [| discriminate].
  specialize (Hinv s g). specialize (Hloop s g).
  rewrite Hrun in Hinv, Hloop.
  destruct (Hloop eq_refl) as [_ Hdone].
  assert (Hinv' : 0 <= hull (s_player s) /\ 0 <= shields (s_player s)).
  { apply Hinv; [| | reflexivity]; destruct player; cbn in *; lia. }
  clear Hinv Hloop. destruct Hinv' as [Hh' Hs'].
  unfold active in Hdone. apply andb_false_iff in Hdone.
  unfold resolution, ret, bind.
  destruct (hull (s_player s) <=? 0) eqn:Hdead;
    [apply Z.leb_le in Hdead | apply Z.leb_gt in Hdead].
  - cbn [fst]. intros [= <-]. cbn.
    repeat split; intros; try discriminate; try lia.
  - destruct (randint 150 400 g1) as [reward g2]. cbn [fst].
    intros [= <-]. cbn.
    destruct Hdone as [He | Hp];
      [apply Z.ltb_ge in He | apply Z.ltb_ge in Hp; lia].
    repeat split; intros; try discriminate; try lia.
Qed.

Lemma session_result_meaning_witness :
  0 <= hull limping_player /\ 0 <= shields limping_player /\
  exists o,
    fst (engage_pirates 1 (fun _ => "3") limping_player PIRATE_TEMPLATE None
                        (tape [19; 19; 10])) = Some o /\
    hull (o_player o) = 0.
Proof.
  assert (H0 : 0 <= hull limping_player) by (simpl; lia).
  assert (H1 : 0 <= shields limping_player) by (simpl; lia).
  destruct (fst (engage_pirates 1 (fun _ => "3") limping_player
                                PIRATE_TEMPLATE None (tape [19; 19; 10])))
    as [o |] eqn:Hrun; [| vm_compute in Hrun; discriminate Hrun].
  destruct (session_result_meaning 1 (fun _ => "3") limping_player
              PIRATE_TEMPLATE None (tape [19; 19; 10]) o H0 H1 Hrun)
    as (_ & Hdefeat & _).
  split; [exact H0 |]. split; [exact H1 |].
  exists o. split; [reflexivity |]. apply Hdefeat.
  clear Hdefeat. revert Hrun. vm_compute. intros [= <-]. reflexivity.
Defined.

Lemma combat_loop_inactive (fuel : nat) (ship_stats : ShipData)
    (inputs : nat -> string) (s : Session) (g : rng) :
  active s = false -> combat_loop fuel ship_stats inputs s g = (Some s, g).
Proof. intros H. destruct fuel; cbn [combat_loop]; rewrite H; reflexivity. Qed.

(** X10: A session entered with a hull that is not positive is over before it
    begins.  If the player's hull is zero or below (as a defeat leaves it),
    [engage_pirates] returns [False] at once: no turn is played, no random
    value drawn, and the record saved is the one [get_player_ship] left.
    If instead the enemy template has no hull left, it returns [True] at
    once and pays the salvage of 150..400 with the single draw it makes. *)
Theorem session_over_before_it_begins
    (fuel : nat) (inputs : nat -> string) (player : Player)
    (enemy_template : Enemy) (d : Disk) (g : rng) :
  let s0 := fst (start_session player enemy_template) in
  let p1 := fst (get_player_ship player) in
  (hull player <= 0 ->
     engage_pirates fuel inputs player enemy_template d g
     = (Some (mk_outcome false p1 (Some p1) s0), g)) /\
  (0 < hull player -> e_hull enemy_template <= 0 ->
     let reward := fst (randint 150 400 g) in
     150 <= reward <= 400 /\
     fst (engage_pirates fuel inputs player enemy_template d g)
     = Some (mk_outcome true (set_credits (credits p1 + reward) p1)
                        (Some (set_credits (credits p1 + reward) p1)) s0)).
Proof.
  cbv zeta. unfold engage_pirates, start_session.
  destruct (get_player_ship player) as [p1 ship_stats] eqn:Hship.
  assert (Hhull : hull p1 = hull player).
  { unfold get_player_ship in Hship.
    rewrite apply_modules_closed_form in Hship.
    injection Hship as <- _. destruct player; reflexivity. }
  cbn [fst]. unfold bind. split.
  - intros Hdead.
    rewrite combat_loop_inactive.
    2:{ unfold active. cbn [s_player].
        replace (0 <? hull p1) with false
          by (symmetry; apply Z.ltb_ge; lia).
        apply andb_false_r. }
    unfold resolution, ret, bind. cbn [s_player].
    replace (hull p1 <=? 0) with true by (symmetry; apply Z.leb_le; lia).
    reflexivity.
  - intros Halive Hwreck.
    split; [apply randint_range; lia |].
    rewrite combat_loop_inactive.
    2:{ unfold active. cbn [s_enemy].
        replace (0 <? e_hull enemy_template) with false
          by (symmetry; apply Z.ltb_ge; lia).
        reflexivity. }
    unfold resolution, ret, bind. cbn [s_player].
    replace (hull p1 <=? 0) with false by (symmetry; apply Z.leb_gt; lia).
    destruct (randint 150 400 g) as [reward g1]. reflexivity.
Qed.

Lemma session_over_before_it_begins_witness :
  let wreck := set_hull 0 boosted_player in
  hull wreck <= 0 /\
  fst (engage_pirates 0 (fun _ => "1") wreck PIRATE_TEMPLATE None three_crits)
  = Some (mk_outcome false (set_shields 115 wreck)
            (Some (set_shields 115 wreck))
            (mk_session (set_shields 115 wreck) PIRATE_TEMPLATE 100 50 1 [])).
Proof.
  intros wreck.
  assert (H : hull wreck <= 0) by (simpl; lia).
  destruct (session_over_before_it_begins 0 (fun _ => "1") wreck
              PIRATE_TEMPLATE None three_crits) as [Hdead _].
  split; [exact H |]. rewrite (Hdead H). reflexivity.
Defined.

(** ** Scan *)

Lemma scan_tag_meaning (m : Q) :
  (scan_tag m = "(w)" <-> (1 < m)%Q) /\
  (scan_tag m = "(r)" <-> (m < 1)%Q) /\
  (scan_tag m = "" <-> (m == 1)%Q).
Proof.
  unfold scan_tag.
  destruct (Qle_bool m 1) eqn:Hle1; destruct (Qle_bool 1 m) eqn:Hle2; cbn.
  - apply Qle_bool_iff in Hle1. apply Qle_bool_iff in Hle2.
    assert (Heq : (m == 1)%Q) by (apply Qle_antisym; assumption).
    repeat split; intros H; try discriminate H; try reflexivity;
      try exact Heq; exfalso; rewrite Heq in H;
      exact (Qlt_irrefl 1 H).
  - apply Qle_bool_iff in Hle1.
    assert (Hlt : (m < 1)%Q).
    { apply Qnot_le_lt. intros H. apply Qle_bool_iff in H. congruence. }
    repeat split; intros H; try discriminate H; try reflexivity;
      try exact Hlt; exfalso.
    + exact (Qlt_irrefl m (Qlt_trans _ _ _ Hlt H)).
    + rewrite H in Hlt. exact (Qlt_irrefl 1 Hlt).
  - assert (Hlt : (1 < m)%Q).
    { apply Qnot_le_lt. intros H. apply Qle_bool_iff in H. congruence. }
    repeat split; intros H; try discriminate H; try reflexivity;
      try exact Hlt; exfalso.
    + exact (Qlt_irrefl m (Qlt_trans _ _ _ H Hlt)).
    + rewrite H in Hlt. exact (Qlt_irrefl 1 Hlt).
  - exfalso.
    assert (Hlt : (1 < m)%Q).
    { apply Qnot_le_lt. intros H. apply Qle_bool_iff in H. congruence. }
    assert (Hle : (1 <= m)%Q) by (apply Qlt_le_weak; exact Hlt).
    apply Qle_bool_iff in Hle. congruence.
Qed.

(** X11: A scan that rolls 5 or less reveals nothing: its log is the single
    failure line.  A scan that rolls more logs a header and then, for
    every entry of the enemy's weakness map, one line that carries the
    damage type and the multiplier and is tagged "(w)" exactly when the
    multiplier is above 1, "(r)" exactly when it is below 1, and not at
    all exactly when it is 1. *)
Theorem scan_reveals_every_multiplier (enemy : Enemy) (g : rng) :
  let roll := fst (roll_dice 20 g) in
  let log := fst (scan_enemy enemy g) in
  (roll <= 5 -> log = [LScanFailed roll]) /\
  (5 < roll ->
     length log = S (length (weakness enemy)) /\
     forall k m, In (k, m) (weakness enemy) ->
       exists tag, In (LScanLine k m tag) log /\
         (tag = "(w)" <-> (1 < m)%Q) /\
         (tag = "(r)" <-> (m < 1)%Q) /\
         (tag = "" <-> (m == 1)%Q)).
Proof.
  cbv zeta. unfold scan_enemy, bind, ret.
  destruct (roll_dice 20 g) as [roll g1]. cbn [fst].
  destruct (roll <=? 5) eqn:Hfail;
    [apply Z.leb_le in Hfail | apply Z.leb_gt in Hfail].
  - split; [reflexivity | lia].
  - split; [lia |]. intros _. cbn [fst length]. rewrite length_map.
    split; [reflexivity |].
    intros k m Hin. exists (scan_tag m). split; [| apply scan_tag_meaning].
    right. apply in_map_iff. exists (k, m). split; [reflexivity | exact Hin].
Qed.

Lemma scan_reveals_every_multiplier_witness :
  5 < fst (roll_dice 20 (tape [9])) /\
  In ("blast", 12 # 10) (weakness PIRATE_TEMPLATE) /\
  In (LScanLine "blast" (12 # 10) "(w)")
     (fst (scan_enemy PIRATE_TEMPLATE (tape [9]))).
Proof.
  assert (Hr : 5 < fst (roll_dice 20 (tape [9])))
    by (vm_compute; reflexivity).
  assert (Hin : In ("blast", 12 # 10) (weakness PIRATE_TEMPLATE))
    by (cbn; tauto).
  destruct (scan_reveals_every_multiplier PIRATE_TEMPLATE (tape [9]))
    as [_ Hok].
  destruct (Hok Hr) as [_ Hall].
  destruct (Hall "blast" (12 # 10) Hin) as (tag & Hline & Hw & _).
  split; [exact Hr |]. split; [exact Hin |].
  assert (Htag : tag = "(w)") by (apply Hw; reflexivity).
  rewrite <- Htag. exact Hline.
Defined.

(* ===================================================================== *)
(** * Properties of the dice                                              *)
(* ===================================================================== *)

(** X12: [chance] clamps its percentage: at 0 or below it never succeeds, at
    100 or above it always does, in between it succeeds exactly when the
    draw of 1..100 is at most the percentage; and on the same draw a
    higher percentage succeeds whenever a lower one does. *)
Theorem chance_clamps_and_is_monotone (percent higher : Z) (g : rng) :
  (percent <= 0 -> fst (chance percent g) = false) /\
  (100 <= percent -> fst (chance percent g) = true) /\
  (0 <= percent <= 100 ->
     (fst (chance percent g) = true <-> fst (randint 1 100 g) <= percent)) /\
  (percent <= higher -> fst (chance percent g) = true ->
     fst (chance higher g) = true).
Proof.
  pose proof (randint_range 1 100 g ltac:(lia)) as Hr.
  unfold chance, bind, ret.
  destruct (randint 1 100 g) as [r g1]. cbn [fst] in *.
  split; [intros Hp; apply Z.leb_gt; lia |].
  split; [intros Hp; apply Z.leb_le; lia |].
  split.
  - intros Hp. rewrite Z.leb_le. lia.
  - intros Hle H. apply Z.leb_le in H. apply Z.leb_le. lia.
Qed.

Lemma chance_clamps_and_is_monotone_witness :
  -3 <= 0 /\ 100 <= 250 /\
  fst (chance (-3) (tape [0])) = false /\
  fst (chance 250 (tape [99])) = true.
Proof.
  assert (H0 : -3 <= 0) by lia.
  assert (H1 : 100 <= 250) by lia.
  destruct (chance_clamps_and_is_monotone (-3) 0 (tape [0])) as (Hnever & _).
  destruct (chance_clamps_and_is_monotone 250 250 (tape [99]))
    as (_ & Halways & _).
  split; [exact H0 |]. split; [exact H1 |].
  split; [exact (Hnever H0) | exact (Halways H1)].
Defined.

(** X13: On the same generator state and a die with at least one side, a roll
    with disadvantage is at most the plain roll, which is at most the roll
    with advantage; all three are in 1..sides, and the two special rolls
    each use two draws. *)
Theorem advantage_brackets_the_plain_roll (sides : Z) (g : rng) :
  1 <= sides ->
  let low := fst (roll_with_disadvantage sides g) in
  let plain := fst (roll_dice sides g) in
  let high := fst (roll_with_advantage sides g) in
  1 <= low /\ low <= plain /\ plain <= high /\ high <= sides /\
  cursor (snd (roll_with_advantage sides g)) = S (S (cursor g)) /\
  cursor (snd (roll_with_disadvantage sides g)) = S (S (cursor g)).
Proof.
  intros Hs. cbv zeta.
  unfold roll_with_advantage, roll_with_disadvantage, roll_dice, bind, ret.
  pose proof (randint_range 1 sides g Hs) as Ha.
  destruct (randint 1 sides g) as [a g1] eqn:Hdraw.
  assert (Hcur : cursor g1 = S (cursor g))
    by (unfold randint in Hdraw; injection Hdraw as _ <-; reflexivity).
  pose proof (randint_range 1 sides g1 Hs) as Hb.
  destruct (randint 1 sides g1) as [b g2] eqn:Hdraw2.
  assert (Hcur2 : cursor g2 = S (cursor g1))
    by (unfold randint in Hdraw2; injection Hdraw2 as _ <-; reflexivity).
  cbn [fst snd] in *. rewrite Hcur2, Hcur. repeat split; lia.
Qed.

Lemma advantage_brackets_the_plain_roll_witness :
  1 <= 20 /\
  fst (roll_with_disadvantage 20 (tape [11; 4]))
    <= fst (roll_dice 20 (tape [11; 4])) /\
  fst (roll_dice 20 (tape [11; 4]))
    <= fst (roll_with_advantage 20 (tape [11; 4])) /\
  fst (roll_with_disadvantage 20 (tape [11; 4])) = 5 /\
  fst (roll_with_advantage 20 (tape [11; 4])) = 12.
Proof.
  assert (H : 1 <= 20) by lia.
  destruct (advantage_brackets_the_plain_roll 20 (tape [11; 4]) H)
    as (_ & Hlow & Hhigh & _).
  split; [exact H |]. split; [exact Hlow |]. split; [exact Hhigh |].
  split; reflexivity.
Defined.

(** X14: A skill check succeeds exactly when the d20 plus the modifier reaches
    the DC, and returns that total with the flag.  So a DC of at most
    [1 + modifier] cannot be failed and a DC above [20 + modifier] cannot
    be met. *)
Theorem skill_check_meets_dc (dc modifier : Z) (g : rng) :
  let roll := fst (roll_dice 20 g) in
  let out := fst (skill_check dc modifier g) in
  snd out = roll + modifier /\
  (fst out = true <-> dc <= roll + modifier) /\
  (dc <= 1 + modifier -> fst out = true) /\
  (20 + modifier < dc -> fst out = false).
Proof.
  cbv zeta. unfold skill_check, bind, ret.
  pose proof (roll_dice_range g) as Hr.
  destruct (roll_dice 20 g) as [roll g1]. cbn [fst snd] in *.
  split; [reflexivity |]. split; [apply Z.leb_le |]. split; intros H.
  - apply Z.leb_le. lia.
  - apply Z.leb_gt. lia.
Qed.

Lemma skill_check_meets_dc_witness :
  3 <= 1 + 2 /\ 20 + 2 < 23 /\
  fst (fst (skill_check 3 2 (tape [0]))) = true /\
  fst (fst (skill_check 23 2 (tape [19]))) = false.
Proof.
  assert (H0 : 3 <= 1 + 2) by lia.
  assert (H1 : 20 + 2 < 23) by lia.
  destruct (skill_check_meets_dc 3 2 (tape [0])) as (_ & _ & Hsure & _).
  destruct (skill_check_meets_dc 23 2 (tape [19])) as (_ & _ & _ & Hnever).
  split; [exact H0 |]. split; [exact H1 |].
  split; [exact (Hsure H0) | exact (Hnever H1)].
Defined.

(* ===================================================================== *)
(** * Properties of the module slots                                      *)
(* ===================================================================== *)

Lemma existsb_eqb_In (x : string) (l : list string) :
  existsb (String.eqb x) l = true <-> In x l.
Proof.
  rewrite existsb_exists. split.
  - intros (y & Hin & Heq). apply String.eqb_eq in Heq. subst. exact Hin.
  - intros Hin. exists x. split; [exact Hin | apply String.eqb_refl].
Qed.

(** [list.remove] takes out the first occurrence and keeps the order. *)
Lemma list_remove_first (x : string) (l : list string) :
  In x l ->
  exists before after,
    l = before ++ x :: after /\ ~ In x before /\
    list_remove x l = before ++ after.
Proof.
  induction l as [| y rest IH]; intros Hin; [destruct Hin |].
  cbn [list_remove]. destruct (String.eqb y x) eqn:Heq.
  - apply String.eqb_eq in Heq. subst y.
    exists [], rest. repeat split. intros [].
  - apply String.eqb_neq in Heq.
    destruct Hin as [-> | Hin]; [congruence |].
    destruct (IH Hin) as (before & after & -> & Hnot & ->).
    exists (y :: before), after. repeat split.
    intros [-> | H]; [congruence | exact (Hnot H)].
Qed.

Lemma list_remove_app_new (x : string) (l : list string) :
  ~ In x l -> list_remove x (l ++ [x]) = l.
Proof.
  induction l as [| y rest IH]; intros Hnot; cbn [app list_remove].
  - rewrite String.eqb_refl. reflexivity.
  - destruct (String.eqb y x) eqn:Heq.
    + apply String.eqb_eq in Heq. subst y. exfalso. apply Hnot. left.
      reflexivity.
    + rewrite IH; [reflexivity |]. intros H. apply Hnot. right. exact H.
Qed.

Lemma list_remove_app_old (x : string) (l tail : list string) :
  In x l -> list_remove x (l ++ tail) = list_remove x l ++ tail.
Proof.
  induction l as [| y rest IH]; intros Hin; [destruct Hin |].
  cbn [app list_remove]. destruct (String.eqb y x) eqn:Heq; [reflexivity |].
  apply String.eqb_neq in Heq.
  destruct Hin as [-> | Hin]; [congruence |].
  rewrite (IH Hin). reflexivity.
Qed.

(** A successful install appends the name and changes nothing else. *)
Lemma install_module_appends (p : Player) (name : string) :
  fst (install_module p name) = true ->
  snd (install_module p name) = set_ship_modules (ship_modules p ++ [name]) p.
Proof.
  unfold install_module.
  destruct (sd_modules (ship_data p) <=? Z.of_nat (length (ship_modules p)));
    [discriminate |].
  destruct (MODULES !! name); [reflexivity | discriminate].
Qed.

(** X15: [install_module] succeeds exactly when a slot is free and the registry
    knows the name; it then appends the name to the installed modules and
    touches nothing else, and a refusal changes nothing.  A ship whose
    modules fit its slots, and whose modules are all known to the registry,
    stays so. *)
Theorem install_module_fills_a_free_slot (p : Player) (name : string) :
  let slots := sd_modules (ship_data p) in
  let out := install_module p name in
  (fst out = true <->
     Z.of_nat (length (ship_modules p)) < slots /\ is_Some (MODULES !! name)) /\
  (fst out = true ->
     snd out = set_ship_modules (ship_modules p ++ [name]) p) /\
  (fst out = false -> snd out = p) /\
  (Z.of_nat (length (ship_modules p)) <= slots ->
     Z.of_nat (length (ship_modules (snd out))) <= slots) /\
  (Forall (fun m => is_Some (MODULES !! m)) (ship_modules p) ->
     Forall (fun m => is_Some (MODULES !! m)) (ship_modules (snd out))).
Proof.
  cbv zeta. unfold install_module.
  destruct (sd_modules (ship_data p) <=? Z.of_nat (length (ship_modules p)))
    eqn:Hfull; [apply Z.leb_le in Hfull | apply Z.leb_gt in Hfull].
  - cbn [fst snd].
    split; [split; [discriminate | intros [H _]; lia] |].
    split; [discriminate |]. split; [reflexivity |].
    split; intros H; exact H.
  - destruct (MODULES !! name) as [md |] eqn:Hget; cbn [fst snd].
    + split; [split; [intros _; split; [lia | eexists; reflexivity]
                     | reflexivity] |].
      split; [reflexivity |]. split; [discriminate |].
      cbn [ship_modules set_ship_modules]. split.
      * intros _. rewrite length_app. cbn. lia.
      * intros Hall. apply Forall_app. split; [exact Hall |].
        apply Forall_cons. split; [| apply Forall_nil; exact I].
        rewrite Hget. eexists. reflexivity.
    + split; [split; [discriminate | intros [_ [x Hx]]; discriminate Hx] |].
      split; [discriminate |]. split; [reflexivity |].
      split; intros H; exact H.
Qed.

Lemma install_module_fills_a_free_slot_witness :
  Z.of_nat (length (ship_modules new_player)) < sd_modules (ship_data new_player) /\
  is_Some (MODULES !! "Mass Driver") /\
  ship_modules (snd (install_module new_player "Mass Driver"))
  = ["Pulse Laser"; "Basic Mining Drill"; "Mass Driver"].
Proof.
  assert (H0 : Z.of_nat (length (ship_modules new_player))
               < sd_modules (ship_data new_player)) by (cbn; lia).
  assert (H1 : is_Some (MODULES !! "Mass Driver"))
    by (eexists; vm_compute; reflexivity).
  destruct (install_module_fills_a_free_slot new_player "Mass Driver")
    as (Hiff & Hok & _).
  split; [exact H0 |]. split; [exact H1 |].
  rewrite (Hok (proj2 Hiff (conj H0 H1))). reflexivity.
Defined.

(** X16: [remove_module] succeeds exactly when the name is installed.  It then
    takes out the first copy of the name and keeps the order of the rest;
    a refusal changes nothing. *)
Theorem remove_module_takes_the_first_copy (p : Player) (name : string) :
  let out := remove_module p name in
  (fst out = true <-> In name (ship_modules p)) /\
  (fst out = false -> snd out = p) /\
  (fst out = true ->
     exists before after,
       ship_modules p = before ++ name :: after /\ ~ In name before /\
       snd out = set_ship_modules (before ++ after) p).
Proof.
  cbv zeta. unfold remove_module.
  destruct (existsb (String.eqb name) (ship_modules p)) eqn:Hin; cbn [fst snd].
  - apply existsb_eqb_In in Hin.
    split; [tauto |]. split; [discriminate |]. intros _.
    destruct (list_remove_first name (ship_modules p) Hin)
      as (before & after & Hsplit & Hnot & Hrem).
    exists before, after. rewrite Hrem. repeat split; assumption.
  - split.
    + split; [discriminate |]. intros H. apply existsb_eqb_In in H. congruence.
    + split; [reflexivity | discriminate].
Qed.

Lemma remove_module_takes_the_first_copy_witness :
  let p := set_ship_modules ["Pulse Laser"; "Cargo Pod"; "Pulse Laser"]
                            new_player in
  In "Pulse Laser" (ship_modules p) /\
  fst (remove_module p "Pulse Laser") = true /\
  ship_modules (snd (remove_module p "Pulse Laser"))
  = ["Cargo Pod"; "Pulse Laser"].
Proof.
  intros p.
  assert (H : In "Pulse Laser" (ship_modules p)) by (cbn; tauto).
  destruct (remove_module_takes_the_first_copy p "Pulse Laser") as (Hiff & _).
  split; [exact H |]. split; [exact (proj2 Hiff H) | reflexivity].
Defined.

(** X17: Installing a module and then removing that name gives back the
    module list up to order; it gives back the very same player when the
    name was not installed before, and otherwise it is the older copy that
    goes, the new one staying at the end. *)
Theorem install_then_remove (p : Player) (name : string) :
  fst (install_module p name) = true ->
  let out := remove_module (snd (install_module p name)) name in
  fst out = true /\
  Permutation (ship_modules (snd out)) (ship_modules p) /\
  (~ In name (ship_modules p) -> snd out = p) /\
  (In name (ship_modules p) ->
     ship_modules (snd out) = list_remove name (ship_modules p) ++ [name]).
Proof.
  intros Hok. cbv zeta.
  rewrite (install_module_appends p name Hok). clear Hok.
  unfold remove_module. cbn [ship_modules set_ship_modules].
  assert (Hin : existsb (String.eqb name) (ship_modules p ++ [name]) = true).
  { apply existsb_eqb_In. apply in_or_app. right. left. reflexivity. }
  rewrite Hin. cbn [fst snd ship_modules set_ship_modules].
  split; [reflexivity |].
  destruct (in_dec String.string_dec name (ship_modules p)) as [Hold | Hnew].
  - rewrite (list_remove_app_old name _ [name] Hold).
    destruct (list_remove_first name (ship_modules p) Hold)
      as (before & after & Hsplit & _ & Hrem).
    split; [| split; [tauto | reflexivity]].
    rewrite Hrem, Hsplit. rewrite <- app_assoc.
    apply Permutation_app_head. symmetry. apply Permutation_cons_append.
  - rewrite (list_remove_app_new name _ Hnew).
    split; [reflexivity |]. split; [| tauto].
    intros _. destruct p; reflexivity.
Qed.

Lemma install_then_remove_witness :
  fst (install_module new_player "Pulse Laser") = true /\
  ship_modules (snd (remove_module (snd (install_module new_player
                                                        "Pulse Laser"))
                                   "Pulse Laser"))
  = ["Basic Mining Drill"; "Pulse Laser"].
Proof.
  assert (H : fst (install_module new_player "Pulse Laser") = true)
    by (vm_compute; reflexivity).
  destruct (install_then_remove new_player "Pulse Laser" H)
    as (_ & _ & _ & Hold).
  split; [exact H |]. rewrite Hold; [reflexivity | cbn; tauto].
Defined.

(* ===================================================================== *)
(** * Properties of the cargo hold                                        *)
(* ===================================================================== *)

Lemma cargo_bonuses_cons (m : string) (rest : list string) (base : Z) :
  cargo_bonuses (m :: rest) base
  = cargo_bonuses rest (base + cargo_bonus_read (MODULES !! m)).
Proof.
  cbn [cargo_bonuses]. unfold cargo_bonus_read.
  destruct (MODULES !! m) as [md |]; [| rewrite Z.add_0_r; reflexivity].
  destruct (String.eqb (m_type md) "utility");
    [reflexivity | rewrite Z.add_0_r; reflexivity].
Qed.

Lemma cargo_bonus_registry (name : string) :
  cargo_bonus_read (MODULES !! name) = cargo_bonus_of name.
Proof.
  destruct (MODULES !! name) as [md |] eqn:Hget.
  - revert name md Hget.
    apply (registry_forall
             (fun name md => cargo_bonus_read (Some md) = cargo_bonus_of name)).
    unfold MODULE_TABLE.
    repeat (apply Forall_cons; split; [vm_compute; reflexivity |]).
    apply Forall_nil. exact I.
  - cbn [cargo_bonus_read]. unfold cargo_bonus_of.
    assert (Hs : String.eqb name "Cargo Pod" = false).
    { apply String.eqb_neq. intros ->. vm_compute in Hget. discriminate. }
    assert (Hr : String.eqb name "Medium Cargo Bay" = false).
    { apply String.eqb_neq. intros ->. vm_compute in Hget. discriminate. }
    rewrite Hs, Hr. reflexivity.
Qed.

Lemma cargo_bonuses_closed_form (mods : list string) :
  forall base,
    cargo_bonuses mods base
    = base + 25 * installed "Cargo Pod" mods
      + 60 * installed "Medium Cargo Bay" mods.
Proof.
  induction mods as [| m rest IH]; intros base.
  - cbn [cargo_bonuses]. unfold installed. cbn. lia.
  - rewrite cargo_bonuses_cons, cargo_bonus_registry, IH, !installed_cons.
    unfold cargo_bonus_of.
    destruct (String.eqb m "Cargo Pod"), (String.eqb m "Medium Cargo Bay"); lia.
Qed.

Lemma installed_app_one (name m : string) (mods : list string) :
  installed name (mods ++ [m])
  = installed name mods + (if String.eqb m name then 1 else 0).
Proof.
  induction mods as [| y rest IH].
  - cbn [app]. rewrite installed_cons. unfold installed. cbn. lia.
  - cbn [app]. rewrite !installed_cons, IH. lia.
Qed.

(** X18: The cargo capacity is the ship's own capacity plus 25 for every
    installed Cargo Pod and 60 for every installed Medium Cargo Bay;
    no other module, known or unknown to the registry, adds to it. *)
Theorem cargo_capacity_counts_pods_and_bays (p : Player) :
  get_cargo_capacity p
  = cargo_capacity (ship_data p)
    + 25 * installed "Cargo Pod" (ship_modules p)
    + 60 * installed "Medium Cargo Bay" (ship_modules p).
Proof. unfold get_cargo_capacity. apply cargo_bonuses_closed_form. Qed.

Lemma weapons_of_app_one (name : string) (mods : list string) :
  weapons_of (mods ++ [name])
  = weapons_of mods ++ (if is_weapon name then [name] else []).
Proof.
  unfold weapons_of. rewrite List.filter_app. cbn [List.filter].
  destruct (is_weapon name); reflexivity.
Qed.

(** X19: An installed module takes effect where the ship is read.  After a
    successful [install_module] the firing order of a volley is the old one
    followed by the new module if it is a weapon; the cargo capacity is up
    by 25 for a Cargo Pod and 60 for a Medium Cargo Bay; and each call of
    [get_player_ship] adds 15 more to the stored shields for a Shield
    Booster and 10 more to the returned power grid for a Reactor Upgrade. *)
Theorem installed_module_takes_effect (p : Player) (name : string) :
  fst (install_module p name) = true ->
  let p' := snd (install_module p name) in
  weapons_of (ship_modules p')
    = weapons_of (ship_modules p) ++ (if is_weapon name then [name] else []) /\
  get_cargo_capacity p' = get_cargo_capacity p + cargo_bonus_of name /\
  shields (fst (get_player_ship p'))
    = shields (fst (get_player_ship p))
      + (if String.eqb name "Shield Booster" then 15 else 0) /\
  power_grid (snd (get_player_ship p'))
    = power_grid (snd (get_player_ship p))
      + (if String.eqb name "Reactor Upgrade" then 10 else 0).
Proof.
  intros Hok. cbv zeta.
  rewrite (install_module_appends p name Hok). clear Hok.
  unfold get_cargo_capacity, get_player_ship.
  rewrite !cargo_bonuses_closed_form, !apply_modules_closed_form.
  cbn [ship_modules set_ship_modules ship_data shields fst snd power_grid
       set_shields set_power_grid].
  rewrite weapons_of_app_one, !installed_app_one. unfold cargo_bonus_of.
  split; [reflexivity |].
  destruct (String.eqb name "Cargo Pod"), (String.eqb name "Medium Cargo Bay"),
           (String.eqb name "Shield Booster"),
           (String.eqb name "Reactor Upgrade");
    repeat split; lia.
Qed.

Lemma installed_module_takes_effect_witness :
  fst (install_module new_player "Medium Cargo Bay") = true /\
  get_cargo_capacity new_player = 50 /\
  get_cargo_capacity (snd (install_module new_player "Medium Cargo Bay")) = 110.
Proof.
  assert (H : fst (install_module new_player "Medium Cargo Bay") = true)
    by (vm_compute; reflexivity).
  destruct (installed_module_takes_effect new_player "Medium Cargo Bay" H)
    as (_ & Hcap & _).
  split; [exact H |]. split; [vm_compute; reflexivity |].
  rewrite Hcap. vm_compute. reflexivity.
Defined.

(** The load of a hold after one entry is written. *)
Lemma cargo_load_insert_fresh (c : gmap string Z) (item : string) (qty : Z) :
  c !! item = None -> cargo_load (<[item := qty]> c) = qty + cargo_load c.
Proof.
  intros Hnone. unfold cargo_load.
  apply (map_fold_insert_L (fun (_ : string) (q acc : Z) => q + acc));
    [intros; lia | exact Hnone].
Qed.

Lemma cargo_load_delete (c : gmap string Z) (item : string) (qty : Z) :
  c !! item = Some qty -> cargo_load (delete item c) = cargo_load c - qty.
Proof.
  intros Hsome.
  assert (H : cargo_load c = qty + cargo_load (delete item c)).
  { rewrite <- (cargo_load_insert_fresh (delete item c) item qty)
      by apply lookup_delete_eq.
    rewrite insert_delete_id by exact Hsome. reflexivity. }
  lia.
Qed.

Lemma cargo_load_insert (c : gmap string Z) (item : string) (qty : Z) :
  cargo_load (<[item := qty]> c)
  = cargo_load c - default 0 (c !! item) + qty.
Proof.
  destruct (c !! item) as [old |] eqn:Hget; cbn.
  - rewrite <- (insert_delete_eq c item qty).
    rewrite cargo_load_insert_fresh by apply lookup_delete_eq.
    rewrite (cargo_load_delete c item old Hget). lia.
  - rewrite cargo_load_insert_fresh by exact Hget. lia.
Qed.

(** X20: [add_cargo] loads exactly what fits.  It accepts exactly when the
    load with the new quantity stays within the cargo capacity; it then
    raises the quantity of that item by [qty], counting a missing item as
    0, leaves every other item and the rest of the player as they were,
    saves the player, and the load is the old load plus [qty], still
    within the capacity.  A refusal changes nothing and saves nothing. *)
Theorem add_cargo_loads_what_fits
    (p : Pilot) (item : string) (qty : Z) (d : PilotDisk) :
  let cap := get_cargo_capacity (core p) in
  let load := cargo_load (cargo p) in
  let ok := fst (fst (add_cargo p item qty d)) in
  let p' := snd (fst (add_cargo p item qty d)) in
  let d' := snd (add_cargo p item qty d) in
  (ok = true <-> load + qty <= cap) /\
  (ok = false -> p' = p /\ d' = d) /\
  (ok = true ->
     cargo p' !! item = Some (default 0 (cargo p !! item) + qty) /\
     (forall other, other <> item -> cargo p' !! other = cargo p !! other) /\
     cargo_load (cargo p') = load + qty /\
     cargo_load (cargo p') <= get_cargo_capacity (core p') /\
     p' = set_cargo (cargo p') p /\ d' = Some p').
Proof.
  cbv zeta. unfold add_cargo.
  destruct (get_cargo_capacity (core p) <? cargo_load (cargo p) + qty)
    eqn:Hfull; [apply Z.ltb_lt in Hfull | apply Z.ltb_ge in Hfull];
    cbn [fst snd].
  - split; [split; [discriminate | lia] |].
    split; [intros _; split; reflexivity | discriminate].
  - split; [split; [intros _; lia | reflexivity] |].
    split; [discriminate |]. intros _. cbn [cargo core set_cargo].
    split; [apply lookup_insert_eq |].
    split; [intros other Hne; apply lookup_insert_ne; congruence |].
    rewrite cargo_load_insert.
    split; [lia |]. split; [lia |]. split; reflexivity.
Qed.

Lemma add_cargo_loads_what_fits_witness :
  let p := mk_pilot new_player "Rifter" 100 {[ "Iron Ore" := 40 ]} false 0 in
  cargo_load (cargo p) + 10 <= get_cargo_capacity (core p) /\
  fst (fst (add_cargo p "Iron Ore" 10 None)) = true /\
  cargo (snd (fst (add_cargo p "Iron Ore" 10 None))) !! "Iron Ore" = Some 50 /\
  fst (fst (add_cargo (snd (fst (add_cargo p "Iron Ore" 10 None)))
                      "Gold" 1 None)) = false.
Proof.
  intros p.
  assert (H : cargo_load (cargo p) + 10 <= get_cargo_capacity (core p))
    by (vm_compute; discriminate).
  destruct (add_cargo_loads_what_fits p "Iron Ore" 10 None)
    as (Hiff & _ & Hok).
  pose proof (proj2 Hiff H) as Hyes.
  destruct (Hok Hyes) as (Hitem & _).
  split; [exact H |]. split; [exact Hyes |]. split; [exact Hitem |].
  vm_compute. reflexivity.
Defined.

(** X21: [remove_cargo] takes out what is there.  It raises [KeyError] exactly
    when the item is not in the hold and [qty] is zero or negative, so
    never for a positive quantity; it refuses, changing nothing, exactly
    when the hold has less than [qty] of the item, a missing item counting
    as 0.  Otherwise it lowers the item by [qty], drops the entry when
    nothing positive is left, leaves every other item as it was, saves the
    player, and the load is the old load minus [qty]. *)
Theorem remove_cargo_takes_what_is_there
    (p : Pilot) (item : string) (qty : Z) (d : PilotDisk) :
  let have := default 0 (cargo p !! item) in
  (remove_cargo p item qty d = None <-> cargo p !! item = None /\ qty <= 0) /\
  (have < qty <-> remove_cargo p item qty d = Some (false, p, d)) /\
  (forall p' d', remove_cargo p item qty d = Some (true, p', d') ->
     qty <= have /\
     cargo p' !! item
       = (if have - qty <=? 0 then None else Some (have - qty)) /\
     (forall other, other <> item -> cargo p' !! other = cargo p !! other) /\
     cargo_load (cargo p') = cargo_load (cargo p) - qty /\
     p' = set_cargo (cargo p') p /\ d' = Some p').
Proof.
  cbv zeta. unfold remove_cargo.
  destruct (default 0 (cargo p !! item) <? qty) eqn:Hshort;
    [apply Z.ltb_lt in Hshort | apply Z.ltb_ge in Hshort].
  - split; [split; [discriminate | intros [Hnone Hq]] |].
    { rewrite Hnone in Hshort. cbn in Hshort. lia. }
    split; [split; [reflexivity | intros _; exact Hshort] |].
    intros p' d' H. discriminate H.
  - destruct (cargo p !! item) as [have |] eqn:Hget;
      cbn [from_option id] in *.
    + split; [split; [discriminate | intros [H _]; discriminate H] |].
      split; [split; [lia | discriminate] |].
      intros p' d' [= <- <-]. cbn [cargo set_cargo].
      split; [exact Hshort |].
      destruct (have - qty <=? 0) eqn:Hleft;
        [apply Z.leb_le in Hleft | apply Z.leb_gt in Hleft].
      * split; [apply lookup_delete_eq |].
        split; [intros other Hne; apply lookup_delete_ne; congruence |].
        rewrite (cargo_load_delete _ _ _ Hget).
        split; [lia |]. split; reflexivity.
      * split; [apply lookup_insert_eq |].
        split; [intros other Hne; apply lookup_insert_ne; congruence |].
        rewrite cargo_load_insert, Hget. cbn.
        split; [lia |]. split; reflexivity.
    + split; [split; [intros _; split; [reflexivity | exact Hshort]
                     | reflexivity] |].
      split; [split; [lia | discriminate] |].
      intros p' d' H. discriminate H.
Qed.

Lemma remove_cargo_takes_what_is_there_witness :
  let p := mk_pilot new_player "Rifter" 100 {[ "Iron Ore" := 40 ]} false 0 in
  default 0 (cargo p !! "Gold") < 1 /\
  remove_cargo p "Gold" 1 None = Some (false, p, None) /\
  remove_cargo p "Gold" 0 None = None.
Proof.
  intros p.
  assert (H : default 0 (cargo p !! "Gold") < 1) by (vm_compute; reflexivity).
  destruct (remove_cargo_takes_what_is_there p "Gold" 1 None)
    as (_ & Hrefuse & _).
  destruct (remove_cargo_takes_what_is_there p "Gold" 0 None)
    as (Herr & _).
  split; [exact H |]. split; [exact (proj1 Hrefuse H) |].
  apply Herr. split; [vm_compute; reflexivity | lia].
Defined.

(** What a successful [remove_cargo] leaves in the hold. *)
Lemma remove_cargo_removed
    (p p' : Pilot) (item : string) (qty : Z) (d d' : PilotDisk) :
  remove_cargo p item qty d = Some (true, p', d') ->
  cargo p' !! item
    = (if default 0 (cargo p !! item) - qty <=? 0 then None
       else Some (default 0 (cargo p !! item) - qty)) /\
  (forall other, other <> item -> cargo p' !! other = cargo p !! other).
Proof.
  unfold remove_cargo.
  destruct (default 0 (cargo p !! item) <? qty); [discriminate |].
  destruct (cargo p !! item) as [have |]; [| discriminate].
  cbn [from_option id]. intros [= <- _]. cbn [cargo set_cargo].
  destruct (have - qty <=? 0).
  - split; [apply lookup_delete_eq |].
    intros other Hne. apply lookup_delete_ne. congruence.
  - split; [apply lookup_insert_eq |].
    intros other Hne. apply lookup_insert_ne. congruence.
Qed.

(** X22: A hold in which every quantity is positive stays so: [add_cargo] with
    a positive quantity and every successful [remove_cargo] leave no entry
    that is zero or negative. *)
Theorem hold_keeps_positive_quantities
    (p : Pilot) (item : string) (qty : Z) (d : PilotDisk) :
  stocked (cargo p) ->
  (0 < qty -> stocked (cargo (snd (fst (add_cargo p item qty d))))) /\
  (forall p' d', remove_cargo p item qty d = Some (true, p', d') ->
     stocked (cargo p')).
Proof.
  intros Hpos. split.
  - intros Hq. unfold add_cargo.
    destruct (get_cargo_capacity (core p) <? cargo_load (cargo p) + qty);
      cbn [fst snd]; [exact Hpos |].
    cbn [cargo set_cargo]. intros other q Hget.
    destruct (String.string_dec item other) as [-> | Hne].
    + rewrite lookup_insert_eq in Hget. injection Hget as <-.
      destruct (cargo p !! other) as [old |] eqn:Hold; cbn [from_option id].
      * pose proof (Hpos other old Hold). lia.
      * lia.
    + rewrite lookup_insert_ne in Hget by exact Hne.
      exact (Hpos other q Hget).
  - intros p' d' Hrun.
    destruct (remove_cargo_removed p p' item qty d d' Hrun) as [Hitem Hrest].
    intros other q Hget.
    destruct (String.string_dec item other) as [-> | Hne].
    + rewrite Hitem in Hget.
      destruct (default 0 (cargo p !! other) - qty <=? 0) eqn:Hleft;
        [discriminate Hget |].
      apply Z.leb_gt in Hleft. injection Hget as <-. lia.
    + rewrite (Hrest other) in Hget by congruence.
      exact (Hpos other q Hget).
Qed.

Lemma hold_keeps_positive_quantities_witness :
  let p := mk_pilot new_player "Rifter" 100 {[ "Iron Ore" := 40 ]} false 0 in
  stocked (cargo p) /\ 0 < 10 /\
  stocked (cargo (snd (fst (add_cargo p "Iron Ore" 10 None)))).
Proof.
  intros p.
  assert (H : stocked (cargo p)).
  { intros item q Hget. cbn [cargo p] in Hget.
    apply lookup_singleton_Some in Hget. destruct Hget as [_ <-]. lia. }
  assert (Hq : 0 < 10) by lia.
  destruct (hold_keeps_positive_quantities p "Iron Ore" 10 None H) as [Ha _].
  split; [exact H |]. split; [exact Hq | exact (Ha Hq)].
Defined.

(** X23: Loading a positive quantity and unloading it again is a round trip.
    In a hold with positive quantities only, whenever [add_cargo] accepts
    a positive [qty] of an item, [remove_cargo] of the same item and
    quantity succeeds and gives back exactly the player from before, the
    entry being dropped again if the item was new. *)
Theorem add_then_remove_restores_the_hold
    (p : Pilot) (item : string) (qty : Z) (d : PilotDisk) :
  stocked (cargo p) -> 0 < qty ->
  fst (fst (add_cargo p item qty d)) = true ->
  remove_cargo (snd (fst (add_cargo p item qty d))) item qty
               (snd (add_cargo p item qty d))
  = Some (true, p, Some p).
Proof.
  intros Hpos Hq Hok. unfold add_cargo in *.
  destruct (get_cargo_capacity (core p) <? cargo_load (cargo p) + qty);
    [discriminate Hok |].
  cbn [fst snd]. unfold remove_cargo. cbn [cargo set_cargo].
  rewrite lookup_insert_eq. cbn [from_option id].
  destruct (cargo p !! item) as [old |] eqn:Hold; cbn [from_option id].
  - pose proof (Hpos item old Hold) as Hold_pos.
    replace (old + qty <? qty) with false by (symmetry; apply Z.ltb_ge; lia).
    replace (old + qty - qty <=? 0) with false
      by (symmetry; apply Z.leb_gt; lia).
    rewrite insert_insert_eq. replace (old + qty - qty) with old by lia.
    rewrite (insert_id (cargo p) item old Hold).
    destruct p; reflexivity.
  - replace (0 + qty <? qty) with false by (symmetry; apply Z.ltb_ge; lia).
    replace (0 + qty - qty <=? 0) with true
      by (symmetry; apply Z.leb_le; lia).
    rewrite (delete_insert_id (cargo p) item _ Hold).
    destruct p; reflexivity.
Qed.

Lemma add_then_remove_restores_the_hold_witness :
  let p := mk_pilot new_player "Rifter" 100 {[ "Iron Ore" := 40 ]} false 0 in
  stocked (cargo p) /\ 0 < 7 /\
  fst (fst (add_cargo p "Gold" 7 None)) = true /\
  remove_cargo (snd (fst (add_cargo p "Gold" 7 None))) "Gold" 7
               (snd (add_cargo p "Gold" 7 None))
  = Some (true, p, Some p).
Proof.
  intros p.
  assert (H : stocked (cargo p)).
  { intros item q Hget. cbn [cargo p] in Hget.
    apply lookup_singleton_Some in Hget. destruct Hget as [_ <-]. lia. }
  assert (Hq : 0 < 7) by lia.
  assert (Hok : fst (fst (add_cargo p "Gold" 7 None)) = true)
    by (vm_compute; reflexivity).
  split; [exact H |]. split; [exact Hq |]. split; [exact Hok |].
  exact (add_then_remove_restores_the_hold p "Gold" 7 None H Hq Hok).
Defined.

(* ===================================================================== *)
(** * Properties of the hangar services and of ship loss                  *)
(* ===================================================================== *)

(** The shared body: with a positive price and credits that are not
    negative a level below 100 is raised, never past 100, for credits that
    never go negative; it reaches 100 exactly when the credits cover the
    whole gap, and then the price is exact; otherwise all credits go and
    buy [credits // price] units, the remainder of the division being
    paid for nothing. *)
Lemma top_up_buys (level credits_ unit_cost : Z) :
  0 < unit_cost -> 0 <= credits_ -> level < 100 ->
  exists level' credits',
    top_up level credits_ unit_cost = Some (Some (level', credits')) /\
    level <= level' <= 100 /\ 0 <= credits' <= credits_ /\
    (level' = 100 <-> (100 - level) * unit_cost <= credits_) /\
    (level' = 100 -> credits_ - credits' = (level' - level) * unit_cost) /\
    (level' < 100 ->
       credits' = 0 /\ level' - level = credits_ / unit_cost /\
       credits_ = (level' - level) * unit_cost + credits_ mod unit_cost).
Proof.
  intros Hcost Hcred Hlow. unfold top_up.
  replace (100 - level <=? 0) with false by (symmetry; apply Z.leb_gt; lia).
  destruct (credits_ <? (100 - level) * unit_cost) eqn:Hpoor;
    [apply Z.ltb_lt in Hpoor | apply Z.ltb_ge in Hpoor].
  - replace (unit_cost =? 0) with false by (symmetry; apply Z.eqb_neq; lia).
    assert (Hq : 0 <= credits_ / unit_cost < 100 - level).
    { split; [apply Z.div_pos; lia |].
      apply Z.div_lt_upper_bound; lia. }
    pose proof (Z.div_mod credits_ unit_cost ltac:(lia)) as Hdm.
    eexists. eexists. split; [reflexivity |].
    split; [lia |]. split; [lia |]. split; [lia |]. split; [lia |].
    intros _. split; [reflexivity |]. split; [lia |]. lia.
  - eexists. eexists. split; [reflexivity |].
    split; [lia |]. split; [nia |]. split; [lia |]. split; [lia |]. lia.
Qed.

Lemma top_up_error (level credits_ unit_cost : Z) :
  top_up level credits_ unit_cost = None
  <-> level < 100 /\ unit_cost = 0 /\ credits_ < 0.
Proof.
  unfold top_up.
  destruct (100 - level <=? 0) eqn:Hfull;
    [apply Z.leb_le in Hfull | apply Z.leb_gt in Hfull].
  - split; [discriminate | lia].
  - destruct (credits_ <? (100 - level) * unit_cost) eqn:Hpoor;
      [apply Z.ltb_lt in Hpoor | apply Z.ltb_ge in Hpoor].
    + destruct (unit_cost =? 0) eqn:Hzero;
        [apply Z.eqb_eq in Hzero | apply Z.eqb_neq in Hzero].
      * split; [intros _; subst; lia | reflexivity].
      * split; [discriminate | lia].
    + split; [discriminate |]. intros (_ & -> & Hneg). lia.
Qed.

(** X24: [repair_ship] with a positive price per point and credits that are not
    negative: a hull of 100 or more is left alone and nothing is saved; a
    hull below 100 is raised, never past 100, and the credits never go
    negative.  The hull reaches 100 exactly when the credits cover the
    whole gap, at exactly the price; otherwise all credits are taken for
    [credits // price] points, so the remainder of the division is lost.
    Only hull and credits change.  The call raises [ZeroDivisionError]
    exactly when the price is 0, the hull below 100 and the credits
    negative. *)
Theorem repair_ship_buys_hull (p : Pilot) (cost_per_hp : Z) (d : PilotDisk) :
  (0 < cost_per_hp -> 0 <= credits (core p) ->
   exists p' d',
     repair_ship p cost_per_hp d = Some (p', d') /\
     (100 <= hull (core p) -> p' = p /\ d' = d) /\
     (hull (core p) < 100 ->
        hull (core p) <= hull (core p') <= 100 /\
        0 <= credits (core p') <= credits (core p) /\
        (hull (core p') = 100
         <-> (100 - hull (core p)) * cost_per_hp <= credits (core p)) /\
        (hull (core p') = 100 ->
           credits (core p) - credits (core p')
           = (hull (core p') - hull (core p)) * cost_per_hp) /\
        (hull (core p') < 100 ->
           credits (core p') = 0 /\
           hull (core p') - hull (core p) = credits (core p) / cost_per_hp) /\
        p' = set_core (set_credits (credits (core p'))
                         (set_hull (hull (core p')) (core p))) p /\
        d' = Some p')) /\
  (repair_ship p cost_per_hp d = None
   <-> hull (core p) < 100 /\ cost_per_hp = 0 /\ credits (core p) < 0).
Proof.
  split.
  - intros Hcost Hcred. unfold repair_ship.
    destruct (Z_lt_le_dec (hull (core p)) 100) as [Hlow | Hfull].
    + destruct (top_up_buys _ _ _ Hcost Hcred Hlow)
        as (h' & c' & -> & Hh & Hc & Hiff & Hexact & Hpart).
      eexists. eexists. split; [reflexivity |].
      split; [lia |]. intros _. cbn [core set_core hull credits set_credits
                                     set_hull].
      split; [exact Hh |]. split; [exact Hc |]. split; [exact Hiff |].
      split; [exact Hexact |].
      split; [intros H; destruct (Hpart H) as (? & ? & _); split; assumption |].
      split; reflexivity.
    + unfold top_up.
      replace (100 - hull (core p) <=? 0) with true
        by (symmetry; apply Z.leb_le; lia).
      exists p, d. split; [reflexivity |].
      split; [intros _; split; reflexivity | lia].
  - unfold repair_ship.
    pose proof (top_up_error (hull (core p)) (credits (core p)) cost_per_hp)
      as Herr.
    destruct (top_up (hull (core p)) (credits (core p)) cost_per_hp)
      as [[[h' c'] |] |].
    + split; [discriminate |]. intros H. apply Herr in H. discriminate H.
    + split; [discriminate |]. intros H. apply Herr in H. discriminate H.
    + split; [intros _; apply Herr; reflexivity | reflexivity].
Qed.

Lemma repair_ship_buys_hull_witness :
  let p := mk_pilot (set_credits 42 (set_hull 60 new_player)) "Rifter" 100
                    ∅ false 0 in
  0 < 5 /\ 0 <= credits (core p) /\
  exists p' d',
    repair_ship p 5 None = Some (p', d') /\
    hull (core p') = 68 /\ credits (core p') = 0.
Proof.
  intros p.
  assert (H0 : 0 < 5) by lia.
  assert (H1 : 0 <= credits (core p)) by (cbn; lia).
  destruct (repair_ship_buys_hull p 5 None) as [Hbuy _].
  destruct (Hbuy H0 H1) as (p' & d' & Hrun & _ & _).
  split; [exact H0 |]. split; [exact H1 |].
  exists p', d'. split; [exact Hrun |].
  revert Hrun. vm_compute. intros [= <- <-]. split; reflexivity.
Defined.

(** X25: [refuel_ship] does the same with the fuel: with a positive price per
    unit and credits that are not negative, a tank at 100 or more is left
    alone and nothing is saved; a tank below 100 is filled, never past
    100, for credits that never go negative, to exactly 100 at exactly the
    price when the credits cover the gap, and otherwise by
    [credits // price] units for all the credits.  Only fuel and credits
    change. *)
Theorem refuel_ship_buys_fuel (p : Pilot) (cost_per_unit : Z) (d : PilotDisk) :
  0 < cost_per_unit -> 0 <= credits (core p) ->
  exists p' d',
    refuel_ship p cost_per_unit d = Some (p', d') /\
    (100 <= fuel p -> p' = p /\ d' = d) /\
    (fuel p < 100 ->
       fuel p <= fuel p' <= 100 /\
       0 <= credits (core p') <= credits (core p) /\
       (fuel p' = 100 <-> (100 - fuel p) * cost_per_unit <= credits (core p)) /\
       (fuel p' = 100 ->
          credits (core p) - credits (core p')
          = (fuel p' - fuel p) * cost_per_unit) /\
       (fuel p' < 100 ->
          credits (core p') = 0 /\
          fuel p' - fuel p = credits (core p) / cost_per_unit) /\
       p' = mk_pilot (set_credits (credits (core p')) (core p)) (ship p)
                     (fuel p') (cargo p) (insurance p) (debt p) /\
       d' = Some p').
Proof.
  intros Hcost Hcred. unfold refuel_ship.
  destruct (Z_lt_le_dec (fuel p) 100) as [Hlow | Hfull].
  - destruct (top_up_buys _ _ _ Hcost Hcred Hlow)
      as (f' & c' & -> & Hf & Hc & Hiff & Hexact & Hpart).
    eexists. eexists. split; [reflexivity |].
    split; [lia |]. intros _. cbn [core fuel credits set_credits].
    split; [exact Hf |]. split; [exact Hc |]. split; [exact Hiff |].
    split; [exact Hexact |].
    split; [intros H; destruct (Hpart H) as (? & ? & _); split; assumption |].
    split; reflexivity.
  - unfold top_up.
    replace (100 - fuel p <=? 0) with true by (symmetry; apply Z.leb_le; lia).
    exists p, d. split; [reflexivity |].
    split; [intros _; split; reflexivity | lia].
Qed.

Lemma refuel_ship_buys_fuel_witness :
  let p := mk_pilot new_player "Rifter" 20 ∅ false 0 in
  0 < 3 /\ 0 <= credits (core p) /\
  exists p' d',
    refuel_ship p 3 None = Some (p', d') /\
    fuel p' = 100 /\ credits (core p') = 760.
Proof.
  intros p.
  assert (H0 : 0 < 3) by lia.
  assert (H1 : 0 <= credits (core p)) by (cbn; lia).
  destruct (refuel_ship_buys_fuel p 3 None H0 H1) as (p' & d' & Hrun & _).
  split; [exact H0 |]. split; [exact H1 |].
  exists p', d'. split; [exact Hrun |].
  revert Hrun. vm_compute. intros [= <- <-]. split; reflexivity.
Defined.

(** X26: [insure_ship] charges at most once and never overdraws.  The pilot is
    insured afterwards exactly when they were before or can pay the price;
    the price is taken only when insurance is actually bought; with a
    price and credits that are not negative the credits stay not negative;
    nothing but the credits and the flag changes; and calling it again
    right away changes nothing. *)
Theorem insure_ship_charges_once (p : Pilot) (cost : Z) (d : PilotDisk) :
  let out := insure_ship p cost d in
  let p' := fst out in
  (insurance p' = true <-> insurance p = true \/ cost <= credits (core p)) /\
  credits (core p')
    = (if negb (insurance p) && (cost <=? credits (core p))
       then credits (core p) - cost else credits (core p)) /\
  (0 <= cost -> 0 <= credits (core p) ->
     0 <= credits (core p') <= credits (core p)) /\
  p' = mk_pilot (set_credits (credits (core p')) (core p)) (ship p) (fuel p)
                (cargo p) (insurance p') (debt p) /\
  insure_ship p' cost (snd out) = out.
Proof.
  cbv zeta. unfold insure_ship.
  destruct (insurance p) eqn:Hins; cbn [fst snd negb andb].
  - rewrite Hins.
    split; [tauto |]. split; [reflexivity |]. split; [lia |].
    split; [| reflexivity]. destruct p as [[] ? ? ? ? ?]; cbn in *.
    rewrite Hins. reflexivity.
  - destruct (credits (core p) <? cost) eqn:Hpoor;
      [apply Z.ltb_lt in Hpoor | apply Z.ltb_ge in Hpoor]; cbn [fst snd].
    + rewrite Hins.
      replace (cost <=? credits (core p)) with false
        by (symmetry; apply Z.leb_gt; lia).
      split; [split; [discriminate | intros [H | H]; [discriminate H | lia]] |].
      split; [reflexivity |]. split; [lia |].
      split; [destruct p as [[] ? ? ? ? ?]; cbn in *; rewrite Hins;
              reflexivity |].
      apply Z.ltb_lt in Hpoor. rewrite Hpoor. reflexivity.
    + replace (cost <=? credits (core p)) with true
        by (symmetry; apply Z.leb_le; lia).
      cbn [insurance core credits set_credits].
      split; [split; [intros _; right; exact Hpoor | reflexivity] |].
      split; [reflexivity |]. split; [lia |]. split; reflexivity.
Qed.

Lemma insure_ship_charges_once_witness :
  let p := mk_pilot new_player "Rifter" 100 ∅ false 0 in
  0 <= 1000 /\ 0 <= credits (core p) /\
  credits (core (fst (insure_ship p 1000 None))) = 0 /\
  insurance (fst (insure_ship p 1000 None)) = true /\
  insure_ship (fst (insure_ship p 1000 None)) 1000
              (snd (insure_ship p 1000 None))
  = insure_ship p 1000 None.
Proof.
  intros p.
  assert (H0 : 0 <= 1000) by lia.
  assert (H1 : 0 <= credits (core p)) by (cbn; lia).
  destruct (insure_ship_charges_once p 1000 None)
    as (_ & _ & _ & _ & Hagain).
  split; [exact H0 |]. split; [exact H1 |].
  split; [reflexivity |]. split; [reflexivity | exact Hagain].
Defined.

Lemma handle_ship_loss_once (p : Pilot) (d : PilotDisk) :
  let p' := fst (handle_ship_loss p d) in
  core p' = reissue (if insurance p then credits (core p)
                     else Z.max 0 (credits (core p) - 500)) (core p) /\
  insurance p' = false /\
  debt p' = (if insurance p then debt p else debt p + 2000) /\
  ship p' = "Rifter" /\ fuel p' = fuel p /\ cargo p' = cargo p /\
  snd (handle_ship_loss p d) = Some p'.
Proof.
  cbv zeta. unfold handle_ship_loss.
  destruct (insurance p) eqn:Hins; cbn [fst snd core insurance debt ship fuel
                                        cargo];
    repeat split; reflexivity.
Qed.

(** X27: Insurance covers one loss.  After [n >= 1] losses in a row the pilot
    flies the starter fit again (hull 100, the Rifter's ship data, Pulse
    Laser and Basic Mining Drill, so one weapon to fire and a cargo
    capacity of 50) and is not insured; every loss that the insurance did
    not cover has added 2000 to the debt and taken 500 credits, stopping
    at 0; ammo, armor, shields, fuel and the cargo hold are as before the
    first loss, and the pilot saved is the pilot returned. *)
Theorem insurance_covers_one_loss (n : nat) (p : Pilot) (d : PilotDisk) :
  (1 <= n)%nat -> 0 <= credits (core p) ->
  let p' := fst (ship_losses n p d) in
  let uncovered := Z.of_nat n - (if insurance p then 1 else 0) in
  core p' = reissue (Z.max 0 (credits (core p) - 500 * uncovered)) (core p) /\
  insurance p' = false /\
  debt p' = debt p + 2000 * uncovered /\
  ship p' = "Rifter" /\ fuel p' = fuel p /\ cargo p' = cargo p /\
  weapons_of (ship_modules (core p')) = ["Pulse Laser"] /\
  get_cargo_capacity (core p') = 50 /\
  snd (ship_losses n p d) = Some p'.
Proof.
  intros Hn Hcred. cbv zeta.
  assert (Hfit : forall c q,
            weapons_of (ship_modules (reissue q c)) = ["Pulse Laser"] /\
            get_cargo_capacity (reissue q c) = 50)
    by (intros c q; split; vm_compute; reflexivity).
  destruct n as [| n]; [lia |]. clear Hn.
  revert p d Hcred. induction n as [| n IH]; intros p d Hcred.
  - cbn [ship_losses].
    pose proof (handle_ship_loss_once p d) as H. cbv zeta in H.
    destruct (handle_ship_loss p d) as [p1 d1]. cbn [fst snd] in *.
    destruct H as (Hc & Hi & Hd & Hs & Hf & Hg & Hsave).
    rewrite Hc, Hi, Hd, Hs, Hf, Hg, Hsave.
    destruct (Hfit (core p) (if insurance p then credits (core p)
                             else Z.max 0 (credits (core p) - 500)))
      as [Hw Hcap].
    destruct (insurance p); cbn [Z.of_nat] in *;
      repeat split; try reflexivity; try assumption; try lia;
      f_equal; lia.
  - change (ship_losses (S (S n)) p d)
      with (let (p1, d1) := handle_ship_loss p d in ship_losses (S n) p1 d1).
    pose proof (handle_ship_loss_once p d) as H. cbv zeta in H.
    destruct (handle_ship_loss p d) as [p1 d1]. cbn [fst snd] in H.
    destruct H as (Hc & Hi & Hd & Hs & Hf & Hg & _).
    assert (Hcred1 : 0 <= credits (core p1)).
    { rewrite Hc. destruct (insurance p); cbn; lia. }
    destruct (IH p1 d1 Hcred1)
      as (Hc' & Hi' & Hd' & Hs' & Hf' & Hg' & Hw' & Hcap' & Hsave').
    rewrite Hi in Hc', Hd'.
    split.
    { rewrite Hc', Hc. unfold reissue. cbn [p_name ammo armor shields credits].
      f_equal. destruct (insurance p); lia. }
    split; [exact Hi' |].
    split; [rewrite Hd', Hd; destruct (insurance p); lia |].
    split; [exact Hs' |]. split; [congruence |]. split; [congruence |].
    split; [exact Hw' |]. split; [exact Hcap' | exact Hsave'].
Qed.

Lemma insurance_covers_one_loss_witness :
  let p := mk_pilot new_player "Rifter" 100 ∅ true 0 in
  (1 <= 3)%nat /\ 0 <= credits (core p) /\
  debt (fst (ship_losses 3 p None)) = 4000 /\
  credits (core (fst (ship_losses 3 p None))) = 0.
Proof.
  intros p.
  assert (H0 : (1 <= 3)%nat) by lia.
  assert (H1 : 0 <= credits (core p)) by (cbn; lia).
  destruct (insurance_covers_one_loss 3 p None H0 H1)
    as (Hc & _ & Hd & _).
  split; [exact H0 |]. split; [exact H1 |].
  split; [rewrite Hd; reflexivity | rewrite Hc; reflexivity].
Defined.
